(** * Loan schedules and effective interest rates

    A shallow embedding of [hazel.py] (the amortisation schedule and its
    payment search) and of [eirmodelling.py] (discounting of dated cash
    flows and extraction of the effective rate), followed by the properties
    proved about them.

    Python's [float] and numpy's [float64] are IEEE 754 binary64 numbers:
    they are modelled by Rocq's primitive floats, whose operations are the
    same correctly rounded ones, so that the model evaluates to the very
    numbers the program computes.  Exceptions are values of type [exn];
    a function that may raise returns a [result]. *)

From Stdlib Require Import ZArith List String Floats Uint63 Bool Lia.
From Stdlib Require Import Permutation Sorted.
Import ListNotations.

Set Warnings "-inexact-float".

(** ** Python values, exceptions and results *)

Module Py.

Inductive exn : Type :=
| KeyError (key : string)
| AttributeError (attr : string)
| ValueError (msg : string)
| ZeroDivisionError
| IndexError
| RuntimeError (msg : string).

Inductive result (A : Type) : Type :=
| Ok (a : A)
| Raise (e : exn).

Arguments Ok {A} a.
Arguments Raise {A} e.

Definition bind {A B : Type} (r : result A) (k : A -> result B) : result B :=
  match r with
  | Ok a => k a
  | Raise e => Raise e
  end.

(** [l[i]] for a list and a natural index. *)
Definition getitem {A : Type} (l : list A) (i : nat) : result A :=
  match nth_error l i with
  | Some a => Ok a
  | None => Raise IndexError
  end.

(** [float(z)] for an integer: the nearest binary64 number. *)
Definition float_of_Z (z : Z) : float :=
  if (z <? 0)%Z
  then PrimFloat.opp (PrimFloat.of_uint63 (Uint63.of_Z (- z)))
  else PrimFloat.of_uint63 (Uint63.of_Z z).

(** [x ** y] on numpy floats is the C library's [pow].  IEEE 754 and C99
    (Annex F) fix two families of its values exactly: [pow(x, 0) = 1] and
    [pow(1, y) = 1], for every [x] and [y], NaN included.  The rest is
    the platform's, and stays a parameter [libm_pow] of the model. *)
Definition np_power (libm_pow : float -> float -> float) (x y : float) : float :=
  if (y =? 0)%float then 1%float
  else if (x =? 1)%float then 1%float
  else libm_pow x y.

(** For the examples: a [libm_pow] that answers NaN, in place of the
    platform's.  Where an example is evaluated to a number, it is stated
    for every [libm_pow] instead. *)
Definition libm_unavailable : float -> float -> float := fun _ _ => nan.

(** [a.sum()] for a numpy array of floats is numpy's pairwise summation,
    added to the additive identity the reduction starts from. *)

(** [for (i = 0; i < n; i++) res += a[i]] *)
Definition add_all (res : float) (a : list float) : float :=
  fold_left PrimFloat.add a res.

(** Eight running sums, the element [i] going into the sum [i mod 8]
    while eight elements are left; the eight are then added two by two,
    and the elements left over one after the other. *)
Fixpoint add_blocks (r0 r1 r2 r3 r4 r5 r6 r7 : float) (a : list float) : float :=
  match a with
  | x0 :: x1 :: x2 :: x3 :: x4 :: x5 :: x6 :: x7 :: rest =>
      add_blocks (r0 + x0) (r1 + x1) (r2 + x2) (r3 + x3)
                 (r4 + x4) (r5 + x5) (r6 + x6) (r7 + x7) rest
  | _ =>
      add_all (((r0 + r1) + (r2 + r3)) + ((r4 + r5) + (r6 + r7))) a
  end%float.

(** numpy's [pairwise_sum]: fewer than eight elements are added one after
    the other; up to 128 elements in eight running sums that start as the
    first eight elements; more than 128 as the sum of two parts, the first
    of them half as long, less what exceeds a multiple of eight.  A part
    is shorter than the whole: [fuel] is the depth left for the halving. *)
Fixpoint pairwise_sum (fuel : nat) (a : list float) : float :=
  match a with
  | x0 :: x1 :: x2 :: x3 :: x4 :: x5 :: x6 :: x7 :: rest =>
      let n := List.length a in
      if (n <=? 128)%nat then add_blocks x0 x1 x2 x3 x4 x5 x6 x7 rest
      else
        match fuel with
        | O => add_blocks x0 x1 x2 x3 x4 x5 x6 x7 rest
        | S fuel' =>
            let n2 := (n / 2 - (n / 2) mod 8)%nat in
            (pairwise_sum fuel' (firstn n2 a) + pairwise_sum fuel' (skipn n2 a))%float
        end
  | _ => add_all 0%float a
  end.

Definition np_sum (a : list float) : float :=
  (0 + pairwise_sum (List.length a) a)%float.

End Py.

Export Py.

Declare Scope py_scope.
Delimit Scope py_scope with py.
Notation "x <- r ;; k" := (bind r (fun x => k))
  (at level 61, r at next level, right associativity) : py_scope.
Notation "' p <- r ;; k" := (bind r (fun x => match x with p => k end))
  (at level 61, p pattern, r at next level, right associativity) : py_scope.

(** ** Calendar dates

    A [pandas.Timestamp] at the day granularity the programs use: the
    proleptic Gregorian calendar of Python's [datetime]. *)

Module Calendar.

Local Open Scope Z_scope.

Record Timestamp : Type := mkdate { year : Z; month : Z; day : Z }.

Definition is_leap (y : Z) : bool :=
  (y mod 4 =? 0) && (negb (y mod 100 =? 0) || (y mod 400 =? 0)).

Definition days_in_month (y m : Z) : Z :=
  if m =? 2 then (if is_leap y then 29 else 28)
  else if (m =? 4) || (m =? 6) || (m =? 9) || (m =? 11) then 30
  else 31.

Definition valid_date (d : Timestamp) : bool :=
  (1 <=? month d) && (month d <=? 12) &&
  (1 <=? day d) && (day d <=? days_in_month (year d) (month d)).

(** Days before 1 January of year [y]. *)
Definition days_before_year (y : Z) : Z :=
  let p := y - 1 in p * 365 + p / 4 - p / 100 + p / 400.

(** Days of year [y] before the first of month [m]. *)
Definition days_before_month (y m : Z) : Z :=
  fold_left (fun acc k => acc + days_in_month y (Z.of_nat k))
            (seq 1 (Z.to_nat (m - 1))) 0.

(** [d.toordinal()]: day 1 is 1 January of year 1. *)
Definition toordinal (d : Timestamp) : Z :=
  days_before_year (year d) + days_before_month (year d) (month d) + day d.

(** [(d2 - d1).days] *)
Definition days_between (d2 d1 : Timestamp) : Z := toordinal d2 - toordinal d1.

(** [d.replace(day=n)]: a [ValueError] when the month has no such day. *)
Definition replace_day (d : Timestamp) (n : Z) : result Timestamp :=
  if (1 <=? n) && (n <=? days_in_month (year d) (month d))
  then Ok (mkdate (year d) (month d) n)
  else Raise (ValueError "day is out of range for month").

(** [d + pd.offsets.MonthBegin(1)]: the first day of the next month,
    also when [d] is itself a first of the month. *)
Definition month_begin (d : Timestamp) : Timestamp :=
  if month d =? 12 then mkdate (year d + 1) 1 1
  else mkdate (year d) (month d + 1) 1.

(** [d + pd.DateOffset(months=n)]: the same day [n] calendar months on,
    clamped to the last day of that month. *)
Definition add_months (d : Timestamp) (n : Z) : Timestamp :=
  let t := month d - 1 + n in
  let y := year d + t / 12 in
  let m := t mod 12 + 1 in
  mkdate y m (Z.min (day d) (days_in_month y m)).

(** [periods] dates from [cur] on, each the date before it moved on by
    the offset. *)
Fixpoint date_range_from (cur : Timestamp) (periods : nat) (months : Z) : list Timestamp :=
  match periods with
  | O => []
  | S k => cur :: date_range_from (add_months cur months) k months
  end.

(** [pd.date_range(start=.., periods=.., freq=DateOffset(months=n))].
    The generator of pandas first works out the last date, [periods - 1]
    offsets on from [start]; it then yields the date it is at as long as
    this is not past the last date, stops after the last date itself, and
    else applies the offset, raising a [ValueError] (whose message names
    the offset) when that does not lead to a later date.  So an offset
    that moves forward yields [periods] dates, none for a count of zero or
    less; an offset of no month makes [start] the last date, whatever the
    count, and yields it once; an offset that moves back puts the last
    date before [start] for two dates and more, which yields none, at
    [start] for one date, and after [start] for a count of zero or less,
    where the first step fails. *)
Definition date_range (start : Timestamp) (periods : Z) (months : Z)
  : result (list Timestamp) :=
  if 0 <? months then Ok (date_range_from start (Z.to_nat periods) months)
  else if months =? 0 then Ok [start]
  else if 1 <? periods then Ok []
  else if periods =? 1 then Ok [start]
  else Raise (ValueError "Offset did not increment date").

End Calendar.

Export Calendar.

(** ** hazel.py: the payment search and the loan schedule *)

Module Hazel.

Local Open Scope py_scope.

(** The table [frequency_dict]: a frequency name and the integer the
    schedule is built with. *)
Definition frequency_dict : list (string * Z) :=
  [ ("monthly"%string, 1%Z);
    ("quarterly"%string, 4%Z);
    ("semi-annually"%string, 5%Z);
    ("annually"%string, 12%Z) ].

(** [d[key]]: a [KeyError] for a key the dictionary does not hold. *)
Definition dict_getitem (d : list (string * Z)) (key : string) : result Z :=
  match find (fun kv => String.eqb (fst kv) key) d with
  | Some kv => Ok (snd kv)
  | None => Raise (KeyError key)
  end.

(** *** [fsolve]

    The function handed to [fsolve] is a bound method that rewrites
    attributes of its object: a callable is a function of its argument and
    of the state [St] of that object.  [fsolve] returns [Some x] where the
    source executes [return x_new], and [None] where the [for] loop runs
    out and the function body ends without a [return]. *)

Section Fsolve.

Context {St : Type}.

Definition callable : Type := float -> St -> result (float * St).

Definition h : float := 1e-5%float.

Fixpoint fsolve_iter (func : callable) (xtol : float) (iterations : nat)
         (x : float) (st : St) : result (option float * St) :=
  match iterations with
  | O => Ok (None, st)
  | S rest =>
      '(f_val, st) <- func x st ;;
      '(f_xh, st) <- func (x + h)%float st ;;
      '(f_x, st) <- func x st ;;
      let f_prime := ((f_xh - f_x) / h)%float in
      if (f_prime =? 0)%float then Raise (ValueError "fail")
      else
        let x_new := (x - f_val / f_prime)%float in
        if (PrimFloat.abs (x_new - x) <? xtol)%float then Ok (Some x_new, st)
        else fsolve_iter func xtol rest x_new st
  end.

Definition fsolve (func : callable) (x0 : float) (xtol : float) (max_iter : Z)
  : St -> result (option float * St) :=
  fsolve_iter func xtol (Z.to_nat max_iter) x0.

End Fsolve.

(** The defaults of [fsolve]'s keyword arguments. *)
Definition default_xtol : float := 1e-5%float.
Definition default_max_iter : Z := 100%Z.

(** *** The [loanSchedule] object *)

(** A row of [payment_schedule]: its date and the days to the next row's
    date, NaN on the last row. *)
Record schedule_row : Type := mkrow { date : Timestamp; days_in_period : float }.

(** The six lists [calculate_payment] rebuilds on every call. *)
Record ledger : Type := mkledger {
  interest_payments : list float;
  principal_payments : list float;
  fees_outstanding : list float;
  total_payments : list float;
  opening_balance : list float;
  closing_balance : list float }.

(** The data frame [__init__] stores last. *)
Record dataframe : Type := mkdf {
  df_payment_date : list Timestamp;
  df_days_in_period : list float;
  df_payment_amount : list float;
  df_interest_payment : list float;
  df_principal_payment : list float;
  df_opening_balance : list float;
  df_closing_balance : list float;
  df_fees_outstanding : list float }.

(** The attributes of the object.  [first_payment_date] is [None] as long
    as no assignment has created the attribute; the attributes below it are
    assigned on every path before they are read. *)
Record loanSchedule : Type := mkloan {
  amount : float;
  payments : Z;
  residual : float;
  start_fee : float;
  end_fee : float;
  frequency : Z;
  rate : float;
  start_date : Timestamp;
  payment_date : Z;
  first_payment_date : option Timestamp;
  payment_schedule : list schedule_row;
  books : ledger;
  monthly_payment : option float;
  df : option dataframe }.

Definition set_first_payment_date (self : loanSchedule) (d : Timestamp) : loanSchedule :=
  mkloan (amount self) (payments self) (residual self) (start_fee self)
         (end_fee self) (frequency self) (rate self) (start_date self)
         (payment_date self) (Some d) (payment_schedule self) (books self)
         (monthly_payment self) (df self).

Definition set_payment_schedule (self : loanSchedule) (s : list schedule_row) : loanSchedule :=
  mkloan (amount self) (payments self) (residual self) (start_fee self)
         (end_fee self) (frequency self) (rate self) (start_date self)
         (payment_date self) (first_payment_date self) s (books self)
         (monthly_payment self) (df self).

Definition set_books (self : loanSchedule) (b : ledger) : loanSchedule :=
  mkloan (amount self) (payments self) (residual self) (start_fee self)
         (end_fee self) (frequency self) (rate self) (start_date self)
         (payment_date self) (first_payment_date self) (payment_schedule self) b
         (monthly_payment self) (df self).

Definition set_monthly_payment (self : loanSchedule) (p : option float) : loanSchedule :=
  mkloan (amount self) (payments self) (residual self) (start_fee self)
         (end_fee self) (frequency self) (rate self) (start_date self)
         (payment_date self) (first_payment_date self) (payment_schedule self)
         (books self) p (df self).

Definition set_df (self : loanSchedule) (d : dataframe) : loanSchedule :=
  mkloan (amount self) (payments self) (residual self) (start_fee self)
         (end_fee self) (frequency self) (rate self) (start_date self)
         (payment_date self) (first_payment_date self) (payment_schedule self)
         (books self) (monthly_payment self) (Some d).

(** The object as [__init__] has it when it calls [generate_schedule]:
    the arguments stored, and no other attribute yet. *)
Definition blank (amount_ : float) (payments_ : Z) (residual_ start_fee_ end_fee_ : float)
           (frequency_ : Z) (rate_ : float) (start_date_ : Timestamp)
           (payment_date_ : Z) : loanSchedule :=
  mkloan amount_ payments_ residual_ start_fee_ end_fee_ frequency_ rate_
         start_date_ payment_date_ None [] (mkledger [] [] [] [] [] [])
         None None.

(** *** [generate_schedule] *)

(** The column [days_in_period]: the days from each date to the next
    ([shift(-1)]), NaN on the last row. *)
Fixpoint days_column (dates : list Timestamp) : list float :=
  match dates with
  | [] => []
  | d :: rest =>
      match rest with
      | [] => nan
      | d' :: _ => float_of_Z (days_between d' d)
      end :: days_column rest
  end.

Definition schedule_of_dates (dates : list Timestamp) : list schedule_row :=
  map (fun p => mkrow (fst p) (snd p)) (combine dates (days_column dates)).

(** The [if]/[elif] that assigns [self.first_payment_date]; it has no
    [else] branch, and on equal days assigns nothing. *)
Definition assign_first_payment_date (self : loanSchedule) : result loanSchedule :=
  if (payment_date self <? day (start_date self))%Z then
    d <- replace_day (month_begin (start_date self)) (payment_date self) ;;
    Ok (set_first_payment_date self d)
  else if (day (start_date self) <? payment_date self)%Z then
    match replace_day (start_date self) (payment_date self) with
    | Ok d => Ok (set_first_payment_date self d)
    | Raise (ValueError _) =>
        d <- replace_day (month_begin (start_date self)) (payment_date self) ;;
        Ok (set_first_payment_date self d)
    | Raise e => Raise e
    end
  else Ok self.

Definition generate_schedule (self : loanSchedule)
  : result (list schedule_row * loanSchedule) :=
  self <- assign_first_payment_date self ;;
  match first_payment_date self with
  | None => Raise (AttributeError "first_payment_date")
  | Some first =>
      payment_dates <- date_range first (payments self) (frequency self) ;;
      let dates := start_date self :: payment_dates in
      Ok (schedule_of_dates dates, self)
  end.

(** *** [calculate_payment] *)

Section WithPow.

Variable libm_pow : float -> float -> float.

(** [self.payment_schedule.at[i, "days_in_period"]] *)
Definition at_days_in_period (s : list schedule_row) (i : nat) : result float :=
  match nth_error s i with
  | Some r => Ok (days_in_period r)
  | None => Raise (KeyError "days_in_period")
  end.

(** The body the three payment branches of the loop share.  They differ
    in the amount appended to [total_payments] ([total]) and in the
    balance appended to [fees_outstanding] ([fees], applied to the
    balance of the period before). *)
Definition accrue (payment : float) (self : loanSchedule) (period : nat)
           (total : float) (fees : float -> float) : result loanSchedule :=
  let b := books self in
  previous <- getitem (closing_balance b) (period - 1) ;;
  let opening := opening_balance b ++ [previous] in
  opened <- getitem opening period ;;
  days <- at_days_in_period (payment_schedule self) (period - 1) ;;
  let interest :=
    (opened * (np_power libm_pow (1 + rate self) (days / 365.25) - 1))%float in
  let principal := (payment - interest)%float in
  fee <- getitem (fees_outstanding b) (period - 1) ;;
  Ok (set_books self
        (mkledger (interest_payments b ++ [interest])
                  (principal_payments b ++ [principal])
                  (fees_outstanding b ++ [fees fee])
                  (total_payments b ++ [total])
                  opening
                  (closing_balance b ++ [(opened - principal)%float]))).

(** One turn of [for date in self.payment_schedule.index]; [period] is
    the loop variable. *)
Definition period_step (payment : float) (self : loanSchedule) (period : nat)
  : result loanSchedule :=
  if (period =? 0)%nat then Ok self
  else if (period =? 1)%nat then
    accrue payment self period (payment + start_fee self)%float
           (fun fee => (fee - start_fee self)%float)
  else if (period =? List.length (payment_schedule self) - 1)%nat then
    accrue payment self period (payment + end_fee self)%float
           (fun fee => (fee - end_fee self)%float)
  else
    accrue payment self period payment (fun fee => fee).

Definition walk (payment : float) (self : loanSchedule) (index : list nat)
  : result loanSchedule :=
  fold_left (fun acc period => self <- acc ;; period_step payment self period)
            index (Ok self).

Definition initial_books (self : loanSchedule) : ledger :=
  mkledger [0%float] [0%float] [(start_fee self + end_fee self)%float]
           [0%float] [0%float] [amount self].

Definition calculate_payment (payment : float) (self : loanSchedule)
  : result (float * loanSchedule) :=
  let self := set_books self (initial_books self) in
  self <- walk payment self (seq 0 (List.length (payment_schedule self))) ;;
  last <- getitem (closing_balance (books self))
                  (List.length (payment_schedule self) - 1) ;;
  Ok ((last - residual self)%float, self).

(** *** What the ledger records for a period

    Period [i] of the books [b] opens with the closing balance of period
    [i - 1] and accrues, on that balance, the annual rate over the days
    of the schedule row [i - 1], on a year of 365.25 days; the payment
    less that interest repays principal. *)
Definition accrual_at (payment : float) (self : loanSchedule)
           (b : ledger) (i : nat) : Prop :=
  exists opened days,
    nth_error (closing_balance b) (i - 1) = Some opened
    /\ nth_error (opening_balance b) i = Some opened
    /\ at_days_in_period (payment_schedule self) (i - 1) = Ok days
    /\ let interest :=
         (opened * (np_power libm_pow (1 + rate self) (days / 365.25) - 1))%float in
       nth_error (interest_payments b) i = Some interest
       /\ nth_error (principal_payments b) i = Some (payment - interest)%float
       /\ nth_error (closing_balance b) i =
          Some (opened - (payment - interest))%float.

(** What the three branches of the loop append to [total_payments], and
    to [fees_outstanding] given the balance [fee] of the period before. *)
Definition total_due (payment : float) (self : loanSchedule) (period : nat) : float :=
  if (period =? 1)%nat then (payment + start_fee self)%float
  else if (period =? List.length (payment_schedule self) - 1)%nat
       then (payment + end_fee self)%float
       else payment.

Definition fee_left (self : loanSchedule) (period : nat) (fee : float) : float :=
  if (period =? 1)%nat then (fee - start_fee self)%float
  else if (period =? List.length (payment_schedule self) - 1)%nat
       then (fee - end_fee self)%float
       else fee.

Definition charged_at (payment : float) (self : loanSchedule)
           (b : ledger) (i : nat) : Prop :=
  exists fee,
    nth_error (fees_outstanding b) (i - 1) = Some fee
    /\ nth_error (fees_outstanding b) i = Some (fee_left self i fee)
    /\ nth_error (total_payments b) i = Some (total_due payment self i).

(** The six lists hold [k] entries each, the first of them those of
    [initial_books], and the periods from 1 on are recorded as above. *)
Definition books_ok (payment : float) (self : loanSchedule)
           (k : nat) (b : ledger) : Prop :=
  List.length (interest_payments b) = k
  /\ List.length (principal_payments b) = k
  /\ List.length (fees_outstanding b) = k
  /\ List.length (total_payments b) = k
  /\ List.length (opening_balance b) = k
  /\ List.length (closing_balance b) = k
  /\ nth_error (fees_outstanding b) 0 = Some (start_fee self + end_fee self)%float
  /\ nth_error (closing_balance b) 0 = Some (amount self)
  /\ forall i, (1 <= i < k)%nat ->
               accrual_at payment self b i /\ charged_at payment self b i.

(** *** [__init__] *)

Variable np_round2 : float -> float.

(** [series.shift(1)]: NaN first, the last element dropped. *)
Definition shift1 (l : list float) : list float :=
  match l with
  | [] => []
  | _ => nan :: removelast l
  end.

(** [pd.DataFrame({...}).round(2)]: the columns must agree in length. *)
Definition make_df (self : loanSchedule) : result dataframe :=
  let b := books self in
  let n := List.length (payment_schedule self) in
  if forallb (fun l => (List.length l =? n)%nat)
       [total_payments b; interest_payments b; principal_payments b;
        opening_balance b; closing_balance b; fees_outstanding b]
  then
    Ok (mkdf (map date (payment_schedule self))
             (map np_round2 (shift1 (map days_in_period (payment_schedule self))))
             (map np_round2 (total_payments b))
             (map np_round2 (interest_payments b))
             (map np_round2 (principal_payments b))
             (map np_round2 (opening_balance b))
             (map np_round2 (closing_balance b))
             (map np_round2 (fees_outstanding b)))
  else Raise (ValueError "All arrays must be of the same length").

(** [self.amount / self.payments]: Python raises on a zero divisor. *)
Definition truediv (x : float) (n : Z) : result float :=
  if (n =? 0)%Z then Raise ZeroDivisionError
  else Ok (x / float_of_Z n)%float.

(** The constructor, statement by statement; the [print] of the schedule
    writes to the standard output and is left out. *)
Definition init (amount_ rate_ : float) (start_date_ : Timestamp) (payments_ : Z)
           (residual_ : float) (payment_date_ : option Z) (frequency_ : string)
           (start_fee_ end_fee_ : float) : result loanSchedule :=
  freq <- dict_getitem frequency_dict frequency_ ;;
  let day_of_month :=
    match payment_date_ with
    | None => day start_date_
    | Some p => Z.min 28 p
    end in
  let self :=
    blank amount_ payments_ residual_ start_fee_ end_fee_ freq rate_
          start_date_ day_of_month in
  '(schedule, self) <- generate_schedule self ;;
  let self := set_payment_schedule self schedule in
  x0 <- truediv (amount self) (payments self) ;;
  '(payment, self) <-
     fsolve calculate_payment x0 default_xtol default_max_iter self ;;
  let self := set_monthly_payment self payment in
  frame <- make_df self ;;
  Ok (set_df self frame).

End WithPow.

(** *** Objects and functions used as examples *)

(** A function of numbers as a callable that leaves the state alone. *)
Definition pure_callable {St : Type} (f : float -> float) : @callable St :=
  fun x st => Ok (f x, st).

(** [lambda x: x*x*x - 2*x + 2]: Newton's method from 0 goes to 1 and
    back to 0. *)
Definition cubic (x : float) : float := (x * x * x - 2 * x + 2)%float.

(** The object with its schedule, as [__init__] has it when it starts the
    payment search; the blank object if the schedule cannot be built. *)
Definition scheduled (self : loanSchedule) : loanSchedule :=
  match generate_schedule self with
  | Ok (schedule, self') => set_payment_schedule self' schedule
  | Raise _ => self
  end.

(** 1000 at 5% from 1 January 2023, payment day 15, fees of 100 and 200:
    over one monthly period, over twelve, and over three periods under
    the table's entry for "quarterly". *)
Definition one_period : loanSchedule :=
  blank 1000 1 0 100 200 1 0.05 (mkdate 2023 1 1) 15.

Definition twelve_months : loanSchedule :=
  blank 1000 12 0 100 200 1 0.05 (mkdate 2023 1 1) 15.

Definition three_quarters : loanSchedule :=
  blank 1000 3 0 0 0 4 0.05 (mkdate 2023 1 1) 15.

End Hazel.

(** ** eirmodelling.py: discounting and the effective rate *)

Module Eir.

Local Open Scope py_scope.

(** A [pd.Series] of cash amounts indexed by date: its entries in the
    order the caller listed them. *)
Definition Series : Type := list (Timestamp * float).

Definition index (s : Series) : list Timestamp := map fst s.
Definition values (s : Series) : list float := map snd s.

(** The sort key of an entry: the day number of its date. *)
Definition key (e : Timestamp * float) : Z := toordinal (fst e).

(** [series.index >= base], entry by entry. *)
Definition on_or_after (base : Timestamp) (e : Timestamp * float) : bool :=
  (toordinal base <=? toordinal (fst e))%Z.

(** *** [sort_index]

    [Series.sort_index()] first looks whether the index is in increasing
    order already, and then hands the series back as it is.  Any other
    series it sorts with numpy's quicksort, which is not stable: the
    entries come back in date order, but those that share a date in an
    order of the library's own, which need not be the order of the
    listing.  The model leaves that order open: it is the parameter
    [tie_order] below, and what is proved holds for every value of it. *)

(** [index.is_monotonic_increasing] *)
Fixpoint is_monotonic_increasing (s : Series) : bool :=
  match s with
  | [] => true
  | x :: rest =>
      match rest with
      | [] => true
      | y :: _ => (key x <=? key y)%Z && is_monotonic_increasing rest
      end
  end.

(** The entry [e] goes before the first entry whose date is not earlier
    than its own. *)
Fixpoint insert_entry (e : Timestamp * float) (s : Series) : Series :=
  match s with
  | [] => [e]
  | x :: rest =>
      if (toordinal (fst e) <=? toordinal (fst x))%Z then e :: s
      else x :: insert_entry e rest
  end.

(** Sorting by date that keeps entries of one date in the order they
    have in [s]. *)
Definition insertion_sort (s : Series) : Series :=
  fold_right insert_entry [] s.

(** The entries at the places [i] and [i + 1] change places. *)
Fixpoint exchange (i : nat) (s : Series) {struct s} : Series :=
  match s with
  | [] => []
  | x :: rest =>
      match i with
      | O => match rest with
             | [] => s
             | y :: rest' => y :: x :: rest'
             end
      | S i' => x :: exchange i' rest
      end
  end.

Definition exchanged (places : list nat) (s : Series) : Series :=
  fold_left (fun acc i => exchange i acc) places s.

(** No exchange: entries of one date stay in the order of the listing,
    which is how numpy's quicksort leaves them in a series of up to
    sixteen entries.  Used for the examples. *)
Definition as_listed : Series -> list nat := fun _ => [].

Section WithSort.

(** The order in which the library's sort leaves the entries of [s] that
    share a date, given as the exchanges of neighbours that lead to it
    from the listing: any order can be reached by such exchanges. *)
Variable tie_order : Series -> list nat.

Definition sort_index (s : Series) : Series :=
  if is_monotonic_increasing s then s
  else insertion_sort (exchanged (tie_order s) s).

Definition _ensure_series_index_datetime (series : Series) : Series :=
  sort_index series.

(** [a / b] on two arrays *)
Fixpoint array_div (a b : list float) : list float :=
  match a, b with
  | x :: a', y :: b' => (x / y)%float :: array_div a' b'
  | _, _ => []
  end.

Definition is_empty {A : Type} (l : list A) : bool :=
  match l with
  | [] => true
  | _ => false
  end.

(** The messages of the two [ValueError]s [xirr] raises on its input, and
    of the [RuntimeError] of its search. *)
Definition empty_message : string := "Cashflows series is empty".
Definition sign_mix_message : string :=
  "Cashflows must contain at least one positive and one negative value to compute an IRR".
Definition search_message : string :=
  "Unable to bracket or converge when solving XIRR".

Section WithPow.

Variable libm_pow : float -> float -> float.

(** [(index - base).dt.days.values.astype(float)] *)
Definition days_from (base : Timestamp) (s : Series) : list float :=
  map (fun d => float_of_Z (days_between d base)) (index s).

(** [(1.0 + r) ** (days / 365.0)] *)
Definition discount_factors (r : float) (days : list float) : list float :=
  map (fun d => np_power libm_pow (1.0 + r) (d / 365.0))%float days.

Definition compute_pv_of_cashflows (cashflows : Series) (discount_rate : float)
           (base_date : Timestamp) : float :=
  if is_empty cashflows then 0.0%float
  else
    let series := _ensure_series_index_datetime cashflows in
    let base := base_date in
    let remaining := filter (on_or_after base) series in
    if is_empty remaining then 0.0%float
    else
      let days := days_from base remaining in
      let df := discount_factors discount_rate days in
      np_sum (array_div (values remaining) df).

(** The discounted value of one entry: its amount over
    [(1 + rate) ** (days / 365)], for the days from [base] to its date. *)
Definition discounted (rate : float) (base : Timestamp) (e : Timestamp * float) : float :=
  (snd e /
   np_power libm_pow (1.0 + rate) (float_of_Z (days_between (fst e) base) / 365.0))%float.

(** *** [xirr] *)

(** The closure [npv] of [xirr], over the sorted series and its base. *)
Definition npv (series : Series) (base : Timestamp) (rate : float) : float :=
  if (rate <=? -0.9999999999)%float then infinity
  else
    let days := days_from base series in
    let df := discount_factors rate days in
    np_sum (array_div (values series) df).

Section Search.

Variable f : float -> float.

(** [while f_low * f_high > 0 and expansions < 50]: [budget] is what is
    left of the fifty expansions. *)
Fixpoint expand_upper (f_low : float) (budget : nat) (upper f_high : float)
  : float * float :=
  match budget with
  | O => (upper, f_high)
  | S rest =>
      if (0 <? f_low * f_high)%float then
        let upper := (upper * 2.0)%float in
        let f_high := f upper in
        if (1e6 <? upper)%float then (upper, f_high)
        else expand_upper f_low rest upper f_high
      else (upper, f_high)
  end.

(** The Newton loop of the fallback: [Some r] where the source returns
    [r], [None] where it leaves the loop by [break] or by running out. *)
Fixpoint newton (tol : float) (iterations : nat) (rate : float) : option float :=
  match iterations with
  | O => None
  | S rest =>
      let fr := f rate in
      let h := if (PrimFloat.abs rate <? 1)%float then 1e-6%float
               else (PrimFloat.abs rate * 1e-6)%float in
      let f1 := f (rate + h)%float in
      let df_dr := ((f1 - fr) / h)%float in
      if (df_dr =? 0)%float then None
      else
        let new_rate := (rate - fr / df_dr)%float in
        if (PrimFloat.abs (new_rate - rate) <? tol)%float then Some new_rate
        else newton tol rest new_rate
  end.

(** The bisection loop and the final estimate after it. *)
Fixpoint bisect (tol : float) (iterations : nat) (a b fa fb : float) : float :=
  match iterations with
  | O => (0.5 * (a + b))%float
  | S rest =>
      let m := (0.5 * (a + b))%float in
      let fm := f m in
      if (PrimFloat.abs fm <? tol)%float then m
      else if (fa * fm <=? 0)%float then bisect tol rest a m fa fm
      else bisect tol rest m b fm fb
  end.

Definition lower0 : float := (-0.9999)%float.
Definition upper0 : float := 10.0%float.

(** The search of [xirr] from "# Bracket search" on, for the function [f]. *)
Definition solve (guess tol : float) (max_iter : Z) : result float :=
  let lower := lower0 in
  let f_low := f lower in
  let '(upper, f_high) := expand_upper f_low 50 upper0 (f upper0) in
  if (0 <? f_low * f_high)%float then
    match newton tol (Z.to_nat max_iter) guess with
    | Some r => Ok r
    | None => Raise (RuntimeError search_message)
    end
  else Ok (bisect tol (Z.to_nat max_iter) lower upper f_low f_high).

End Search.

Definition has_sign_mix (vals : list float) : bool :=
  existsb (fun v => (0 <? v)%float) vals && existsb (fun v => (v <? 0)%float) vals.

Definition xirr (cashflows : Series) (guess tol : float) (max_iter : Z)
  : result float :=
  let series := _ensure_series_index_datetime cashflows in
  match series with
  | [] => Raise (ValueError empty_message)
  | first :: _ =>
      let vals := values series in
      if negb (has_sign_mix vals) then
        Raise (ValueError sign_mix_message)
      else
        let base := fst first in
        solve (npv series base) guess tol max_iter
  end.

End WithPow.

End WithSort.

(** *** The steps of the search, one at a time

    The three loops above, unrolled into the step each of them repeats;
    the properties below relate the loops to these. *)

(** The upper bound after [k] doublings. *)
Fixpoint doubled (k : nat) (upper : float) : float :=
  match k with
  | O => upper
  | S k' => doubled k' (upper * 2.0)%float
  end.

Definition midpoint (a b : float) : float := (0.5 * (a + b))%float.

(** One bisection step on the bracket [(a, b)] with [fa = f a]: the half
    on which the sign changes. *)
Definition narrow (f : float -> float) (br : float * float * float)
  : float * float * float :=
  let '(a, b, fa) := br in
  let m := midpoint a b in
  if (fa * f m <=? 0)%float then (a, m, fa) else (m, b, f m).

Fixpoint narrowed (f : float -> float) (k : nat) (br : float * float * float)
  : float * float * float :=
  match k with
  | O => br
  | S k' => narrowed f k' (narrow f br)
  end.

Definition bracket_midpoint (br : float * float * float) : float :=
  let '(a, b, _) := br in midpoint a b.

(** The finite-difference step of the fallback and its slope. *)
Definition step_size (rate : float) : float :=
  if (PrimFloat.abs rate <? 1)%float then 1e-6%float
  else (PrimFloat.abs rate * 1e-6)%float.

Definition slope (f : float -> float) (rate : float) : float :=
  ((f (rate + step_size rate) - f rate) / step_size rate)%float.

Definition newton_step (f : float -> float) (rate : float) : float :=
  (rate - f rate / slope f rate)%float.

Fixpoint newton_iterate (f : float -> float) (k : nat) (rate : float) : float :=
  match k with
  | O => rate
  | S k' => newton_iterate f k' (newton_step f rate)
  end.

(** [r] is what bisection from the bracket [br] yields in [n] steps: the
    first midpoint at which [|f m| < tol], or the midpoint of the bracket
    left after [n] steps when none qualified. *)
Definition missed (f : float -> float) (tol : float)
           (br : float * float * float) (i : nat) : Prop :=
  (PrimFloat.abs (f (bracket_midpoint (narrowed f i br))) <? tol)%float = false.

Definition bisected (f : float -> float) (tol : float) (n : nat)
           (br : float * float * float) (r : float) : Prop :=
  (exists j, (j < n)%nat
             /\ r = bracket_midpoint (narrowed f j br)
             /\ (PrimFloat.abs (f r) <? tol)%float = true
             /\ forall i, (i < j)%nat -> missed f tol br i)
  \/ (r = bracket_midpoint (narrowed f n br)
      /\ forall i, (i < n)%nat -> missed f tol br i).

(** [r] is the iterate at which Newton's method from [guess] first moves
    by less than [tol], within [n] steps and with a slope other than zero
    at every iterate before it. *)
Definition newton_converged (f : float -> float) (tol : float) (n : nat)
           (guess r : float) : Prop :=
  exists k, (k < n)%nat
            /\ r = newton_iterate f (S k) guess
            /\ (PrimFloat.abs (r - newton_iterate f k guess) <? tol)%float = true
            /\ (forall i, (i <= k)%nat ->
                          (slope f (newton_iterate f i guess) =? 0)%float = false)
            /\ (forall i, (i < k)%nat ->
                          (PrimFloat.abs (newton_iterate f (S i) guess
                                          - newton_iterate f i guess) <? tol)%float
                          = false).

(** Newton's method from [guess] gives up within [n] steps: it meets a
    slope of zero at an iterate it reached without converging, which is
    where the source leaves the loop by [break], or it makes all [n]
    steps and none of them is shorter than [tol]. *)
Definition newton_gave_up (f : float -> float) (tol : float) (n : nat)
           (guess : float) : Prop :=
  (exists k, (k < n)%nat
             /\ (slope f (newton_iterate f k guess) =? 0)%float = true
             /\ forall i, (i < k)%nat ->
                          (slope f (newton_iterate f i guess) =? 0)%float = false
                          /\ (PrimFloat.abs (newton_iterate f (S i) guess
                                             - newton_iterate f i guess) <? tol)%float
                             = false)
  \/ (forall i, (i < n)%nat ->
                 (slope f (newton_iterate f i guess) =? 0)%float = false
                 /\ (PrimFloat.abs (newton_iterate f (S i) guess
                                    - newton_iterate f i guess) <? tol)%float
                    = false).

(** The defaults of [xirr]'s keyword arguments. *)
Definition default_guess : float := 0.05%float.
Definition default_tol : float := 1e-8%float.
Definition default_max_iter : Z := 200%Z.

Definition calculate_eir_for_loan (tie_order : Series -> list nat)
           (libm_pow : float -> float -> float)
           (cashflows : Series) : result float :=
  xirr tie_order libm_pow cashflows default_guess default_tol default_max_iter.

(** *** Series used as examples *)

Definition new_year_2026 : Timestamp := mkdate 2026 1 1.

(** The series of the test [test_xirr_requires_mixed_signs]. *)
Definition receipts_only : Series :=
  [ (mkdate 2026 1 1, 100%float); (mkdate 2027 1 1, 50%float);
    (mkdate 2028 1 1, 50%float) ].

(** The series of the test of the IFRS principle, and the same entries
    listed in another order. *)
Definition proceeds_and_receipts : Series :=
  [ (mkdate 2026 1 1, (-950)%float); (mkdate 2027 1 1, 400%float);
    (mkdate 2028 1 1, 400%float); (mkdate 2029 1 1, 400%float) ].

Definition proceeds_and_receipts_shuffled : Series :=
  [ (mkdate 2028 1 1, 400%float); (mkdate 2026 1 1, (-950)%float);
    (mkdate 2029 1 1, 400%float); (mkdate 2027 1 1, 400%float) ].

(** Three cash flows on one day, listed in two orders. *)
Definition same_day : Series :=
  [ (new_year_2026, 1e16%float); (new_year_2026, 1%float);
    (new_year_2026, (-1e16)%float) ].

Definition same_day_reordered : Series :=
  [ (new_year_2026, 1e16%float); (new_year_2026, (-1e16)%float);
    (new_year_2026, 1%float) ].

End Eir.

(** ** The two day counts

    The exponent the walk of [hazel.py] gives a period of [d] days, and
    the exponent [eirmodelling.py] gives a gap of [d] days. *)





(** ** eirmodelling.py: batches and carrying-value adjustments *)

Module Revaluation.

Import Eir.

Local Open Scope py_scope.

Section WithPow.

Variable tie_order : Series -> list nat.
Variable libm_pow : float -> float -> float.

(** [calculate_eir_for_loans]: the loop appends one rate per loan; an
    exception of [calculate_eir_for_loan] leaves the loop and the
    function.  The [pd.Series] returned is indexed by position, as the
    list is. *)
Definition calculate_eir_for_loans (loans : list Series) : result (list float) :=
  fold_left (fun acc s =>
               results <- acc ;;
               e <- calculate_eir_for_loan tie_order libm_pow s ;;
               Ok (results ++ [e]))
            loans (Ok []).

(** [e] is the rate [calculate_eir_for_loan] returns for [s]. *)
Definition rate_of (s : Series) (e : float) : Prop :=
  calculate_eir_for_loan tie_order libm_pow s = Ok e.

(** A row of the frame [compute_carrying_value_adjustments] returns. *)
Record adjustment_row : Type := mkadjustment {
  reforecast_date : Timestamp;
  pv_original : float;
  pv_reforecast : float;
  adjustment : float }.

(** [reforecasts] is a dict from dates to series: its items, in the order
    they were inserted.  The keys of a dict are pairwise distinct. *)
Definition Reforecasts : Type := list (Timestamp * Series).

(** [sorted(reforecasts.items())]: by key, as the keys differ. *)
Fixpoint insert_item (item : Timestamp * Series) (items : Reforecasts) : Reforecasts :=
  match items with
  | [] => [item]
  | x :: rest =>
      if (toordinal (fst item) <=? toordinal (fst x))%Z then item :: items
      else x :: insert_item item rest
  end.

Definition sorted_items (reforecasts : Reforecasts) : Reforecasts :=
  fold_right insert_item [] reforecasts.

(** The body of the loop over the sorted items. *)
Definition revalue (orig : Series) (eir : float) (item : Timestamp * Series)
  : adjustment_row :=
  let '(rd, rf_series) := item in
  let rd_ts := rd in
  let remaining_orig := filter (on_or_after rd_ts) orig in
  let pv_orig := compute_pv_of_cashflows tie_order libm_pow remaining_orig eir rd_ts in
  let rf := _ensure_series_index_datetime tie_order rf_series in
  let rf_remaining := filter (on_or_after rd_ts) rf in
  let pv_rf := compute_pv_of_cashflows tie_order libm_pow rf_remaining eir rd_ts in
  let adjustment := (pv_rf - pv_orig)%float in
  mkadjustment rd_ts pv_orig pv_rf adjustment.

(** [pd.DataFrame(rows).set_index("reforecast_date")]: a frame built from
    no row has no column, and [set_index] raises a [KeyError]. *)
Definition set_index_reforecast_date (rows : list adjustment_row)
  : result (list adjustment_row) :=
  match rows with
  | [] => Raise (KeyError "None of ['reforecast_date'] are in the columns")
  | _ => Ok rows
  end.

Definition compute_carrying_value_adjustments
           (original : Series) (reforecasts : Reforecasts) (eir : option float)
  : result (list adjustment_row) :=
  let orig := _ensure_series_index_datetime tie_order original in
  eir <- match eir with
         | None => calculate_eir_for_loan tie_order libm_pow orig
         | Some e => Ok e
         end ;;
  let rows := map (revalue orig eir) (sorted_items reforecasts) in
  set_index_reforecast_date rows.

End WithPow.

(** A series in date order: each entry dated no later than the next. *)
Definition in_date_order (s : Series) : Prop :=
  Sorted (fun a b => (key a <= key b)%Z) s.

End Revaluation.

(** ** The steps of [fsolve] and the months of the calendar *)

Module Steps.

(** The slope and the step of [fsolve] for a function of numbers. *)
Definition fsolve_slope (f : float -> float) (x : float) : float :=
  ((f (x + Hazel.h) - f x) / Hazel.h)%float.

Definition fsolve_step (f : float -> float) (x : float) : float :=
  (x - f x / fsolve_slope f x)%float.

Fixpoint fsolve_iterate (f : float -> float) (k : nat) (x : float) : float :=
  match k with
  | O => x
  | S k' => fsolve_iterate f k' (fsolve_step f x)
  end.

(** [r] is the iterate at which the steps from [x0] first get shorter
    than [xtol], within [n] steps, the slope being other than zero at
    every iterate before it. *)
Definition fsolve_converged (f : float -> float) (xtol : float) (n : nat)
           (x0 r : float) : Prop :=
  exists k, (k < n)%nat
            /\ r = fsolve_iterate f (S k) x0
            /\ (PrimFloat.abs (r - fsolve_iterate f k x0) <? xtol)%float = true
            /\ (forall i, (i <= k)%nat ->
                          (fsolve_slope f (fsolve_iterate f i x0) =? 0)%float = false)
            /\ (forall i, (i < k)%nat ->
                          (PrimFloat.abs (fsolve_iterate f (S i) x0
                                          - fsolve_iterate f i x0) <? xtol)%float
                          = false).

(** The slope is zero at the iterate [k], reached without converging. *)
Definition fsolve_flat (f : float -> float) (xtol : float) (n : nat)
           (x0 : float) : Prop :=
  exists k, (k < n)%nat
            /\ (fsolve_slope f (fsolve_iterate f k x0) =? 0)%float = true
            /\ (forall i, (i < k)%nat ->
                          (fsolve_slope f (fsolve_iterate f i x0) =? 0)%float = false
                          /\ (PrimFloat.abs (fsolve_iterate f (S i) x0
                                             - fsolve_iterate f i x0) <? xtol)%float
                             = false).

(** The number [calculate_payment] returns for the payment [x] on the
    object [s], the last closing balance less the residual: the function
    [fsolve] is called on.  [calculate_payment] returns for every
    payment. *)
Definition payment_gap (libm_pow : float -> float -> float)
           (s : Hazel.loanSchedule) (x : float) : float :=
  match Hazel.calculate_payment libm_pow x s with
  | Ok (value, _) => value
  | Raise _ => nan
  end.

(** Two objects with the same loan terms and the same schedule: what
    [calculate_payment] reads. *)
Definition same_terms (s1 s2 : Hazel.loanSchedule) : Prop :=
  Hazel.amount s1 = Hazel.amount s2
  /\ Hazel.residual s1 = Hazel.residual s2
  /\ Hazel.start_fee s1 = Hazel.start_fee s2
  /\ Hazel.end_fee s1 = Hazel.end_fee s2
  /\ Hazel.rate s1 = Hazel.rate s2
  /\ Hazel.payment_schedule s1 = Hazel.payment_schedule s2.

(** Two outcomes of a step of the walk that agree: the same exception, or
    objects with the same terms and the same books. *)
Definition agree (r1 r2 : result Hazel.loanSchedule) : Prop :=
  match r1, r2 with
  | Ok t1, Ok t2 => same_terms t1 t2 /\ Hazel.books t1 = Hazel.books t2
  | Raise e1, Raise e2 => e1 = e2
  | _, _ => False
  end.

Local Open Scope Z_scope.

(** The months counted from year 0: month [m] of year [y] is month
    [12 * y + (m - 1)]. *)
Definition month_number (d : Timestamp) : Z := 12 * year d + (month d - 1).

(** The day number of the day before the first of the month of number
    [n]. *)
Definition month_start (n : Z) : Z :=
  days_before_year (n / 12) + days_before_month (n / 12) (n mod 12 + 1).

End Steps.

(** * Properties *)

(** ** Sorting a series by date *)

Section SortIndex.

Import Eir Revaluation.

Local Open Scope Z_scope.

(** *** The sort that keeps the listing order of equal dates *)

Lemma insert_entry_perm (e : Timestamp * float) (s : Series) :
  Permutation (insert_entry e s) (e :: s).
Proof.
  induction s as [|x rest IH]; simpl.
  - apply Permutation_refl.
  - destruct (toordinal (fst e) <=? toordinal (fst x)).
    + apply Permutation_refl.
    + eapply perm_trans; [apply perm_skip, IH | apply perm_swap].
Qed.

Lemma insertion_sort_perm (s : Series) : Permutation (insertion_sort s) s.
Proof.
  induction s as [|x rest IH]; simpl.
  - constructor.
  - eapply perm_trans; [apply insert_entry_perm | now apply perm_skip].
Qed.

(** Two insertions commute when the dates differ, whatever the list. *)
Lemma insert_entry_comm (x y : Timestamp * float) (s : Series) :
  key x <> key y ->
  insert_entry x (insert_entry y s) = insert_entry y (insert_entry x s).
Proof.
  unfold key; intros Hxy.
  induction s as [|z rest IH]; simpl.
  - destruct (Z.leb_spec (toordinal (fst x)) (toordinal (fst y)));
      destruct (Z.leb_spec (toordinal (fst y)) (toordinal (fst x)));
      try reflexivity; lia.
  - destruct (Z.leb_spec (toordinal (fst y)) (toordinal (fst z))) as [Hyz|Hyz];
      destruct (Z.leb_spec (toordinal (fst x)) (toordinal (fst z))) as [Hxz|Hxz];
      simpl;
      repeat match goal with
             | |- context [(?a <=? ?b)] => destruct (Z.leb_spec a b)
             end;
      try reflexivity; try lia.
    now rewrite IH.
Qed.

Lemma NoDup_keys_swap (x y : Timestamp * float) (s : Series) :
  NoDup (map key (x :: y :: s)) -> key x <> key y.
Proof.
  simpl; intros H Heq. inversion H as [|? ? Hnotin _]; subst.
  apply Hnotin. left. now symmetry.
Qed.

(** Series with pairwise distinct dates: every listing order sorts to the
    same series. *)
Lemma insertion_sort_unique (s1 s2 : Series) :
  Permutation s1 s2 -> NoDup (map key s1) -> insertion_sort s1 = insertion_sort s2.
Proof.
  induction 1 as [|x l l' Hp IH|x y l|l l' l'' Hp1 IH1 Hp2 IH2]; intros Hnd.
  - reflexivity.
  - simpl. rewrite IH; [reflexivity|]. now inversion Hnd.
  - simpl. apply insert_entry_comm.
    intros Heq. apply (NoDup_keys_swap y x l Hnd). now symmetry.
  - rewrite IH1 by assumption. apply IH2.
    eapply Permutation_NoDup; [|exact Hnd]. now apply Permutation_map.
Qed.

(** Keeping the entries on or after a date commutes with this sort. *)
Lemma filter_insert_entry (base : Timestamp) (e : Timestamp * float) (s : Series) :
  filter (on_or_after base) (insert_entry e s) =
  if on_or_after base e then insert_entry e (filter (on_or_after base) s)
  else filter (on_or_after base) s.
Proof.
  unfold on_or_after.
  induction s as [|x rest IH]; simpl.
  - now destruct (toordinal base <=? toordinal (fst e)).
  - destruct (Z.leb_spec (toordinal (fst e)) (toordinal (fst x))) as [Hex|Hex]; simpl.
    + destruct (Z.leb_spec (toordinal base) (toordinal (fst e))) as [Hbe|Hbe].
      * destruct (Z.leb_spec (toordinal base) (toordinal (fst x))); [|lia].
        simpl. destruct (Z.leb_spec (toordinal (fst e)) (toordinal (fst x))); [reflexivity|lia].
      * reflexivity.
    + rewrite IH.
      destruct (Z.leb_spec (toordinal base) (toordinal (fst x))) as [Hbx|Hbx];
        destruct (Z.leb_spec (toordinal base) (toordinal (fst e))) as [Hbe|Hbe];
        simpl; try reflexivity.
      destruct (Z.leb_spec (toordinal (fst e)) (toordinal (fst x))); [lia|reflexivity].
Qed.

Lemma filter_insertion_sort (base : Timestamp) (s : Series) :
  filter (on_or_after base) (insertion_sort s) =
  insertion_sort (filter (on_or_after base) s).
Proof.
  induction s as [|x rest IH]; simpl; [reflexivity|].
  rewrite filter_insert_entry, IH.
  now destruct (on_or_after base x).
Qed.

Lemma filter_on_or_after_idem (base : Timestamp) (s : Series) :
  filter (on_or_after base) (filter (on_or_after base) s) =
  filter (on_or_after base) s.
Proof.
  induction s as [|x rest IH]; simpl; [reflexivity|].
  destruct (on_or_after base x) eqn:E; simpl; [rewrite E, IH|]; auto.
Qed.

Lemma insert_entry_in_date_order (e : Timestamp * float) (s : Series) :
  in_date_order s -> in_date_order (insert_entry e s).
Proof.
  unfold in_date_order.
  induction s as [|x rest IH]; intros Hs; simpl.
  - repeat constructor.
  - destruct (Z.leb_spec (toordinal (fst e)) (toordinal (fst x))) as [Hle|Hlt].
    + constructor; [assumption|]. constructor. exact Hle.
    + inversion Hs as [|? ? Hrest Hhd]; subst.
      constructor; [now apply IH|].
      destruct rest as [|y rest']; simpl.
      * constructor. unfold key. lia.
      * destruct (Z.leb_spec (toordinal (fst e)) (toordinal (fst y))).
        -- constructor. unfold key. lia.
        -- inversion Hhd; subst. now constructor.
Qed.

Lemma insertion_sort_in_date_order (s : Series) : in_date_order (insertion_sort s).
Proof.
  induction s as [|x rest IH]; simpl.
  - constructor.
  - now apply insert_entry_in_date_order.
Qed.

Lemma insertion_sort_fixes_date_order (s : Series) :
  in_date_order s -> insertion_sort s = s.
Proof.
  unfold in_date_order.
  induction s as [|x rest IH]; intros Hs; [reflexivity|].
  inversion Hs as [|? ? Hrest Hhd]; subst.
  simpl. fold (insertion_sort rest). rewrite (IH Hrest).
  destruct Hhd as [|y rest' Hxy]; simpl; [reflexivity|].
  unfold key in Hxy.
  destruct (Z.leb_spec (toordinal (fst x)) (toordinal (fst y))); [reflexivity|lia].
Qed.

(** *** Series in date order *)

Lemma is_monotonic_increasing_spec (s : Series) :
  is_monotonic_increasing s = true <-> in_date_order s.
Proof.
  unfold in_date_order.
  induction s as [|x rest IH]; [split; [constructor|reflexivity]|].
  destruct rest as [|y rest'].
  - split; [repeat constructor|reflexivity].
  - change (is_monotonic_increasing (x :: y :: rest'))
      with ((key x <=? key y) && is_monotonic_increasing (y :: rest'))%bool.
    rewrite andb_true_iff, Z.leb_le, IH. split.
    + intros [Hxy Hs]. constructor; [assumption|now constructor].
    + intros Hs. inversion Hs as [|? ? Hrest Hhd]; subst.
      inversion Hhd; subst. now split.
Qed.

(** In a series in date order no entry is dated before the first. *)
Lemma in_date_order_head (first : Timestamp * float) (rest : Series) :
  in_date_order (first :: rest) ->
  forall e, In e (first :: rest) -> key first <= key e.
Proof.
  unfold in_date_order. intros Hs.
  apply Sorted_StronglySorted in Hs.
  - inversion Hs as [|? ? _ Hall]; subst.
    intros e [<-|He]; [lia|].
    rewrite Forall_forall in Hall. now apply Hall.
  - intros a b c Hab Hbc. lia.
Qed.

(** Dropping entries leaves a series in date order. *)
Lemma filter_in_date_order (p : Timestamp * float -> bool) (s : Series) :
  in_date_order s -> in_date_order (filter p s).
Proof.
  unfold in_date_order. intros Hs.
  apply Sorted_StronglySorted in Hs; [|intros a b c Hab Hbc; lia].
  apply StronglySorted_Sorted.
  induction Hs as [|x rest Hrest IH Hall]; simpl; [constructor|].
  destruct (p x); [|exact IH].
  constructor; [exact IH|].
  rewrite Forall_forall in *. intros e He.
  apply filter_In in He. apply Hall. exact (proj1 He).
Qed.

Lemma filter_all {A : Type} (p : A -> bool) (l : list A) :
  (forall x, In x l -> p x = true) -> filter p l = l.
Proof.
  induction l as [|x rest IH]; intros H; [reflexivity|].
  simpl. rewrite (H x (or_introl eq_refl)).
  f_equal. apply IH. intros y Hy. apply H. now right.
Qed.

Lemma filter_perm {A : Type} (p : A -> bool) (l1 l2 : list A) :
  Permutation l1 l2 -> Permutation (filter p l1) (filter p l2).
Proof.
  induction 1 as [|x l l' Hp IH|x y l|l l' l'' Hp1 IH1 Hp2 IH2]; simpl.
  - constructor.
  - destruct (p x); [now constructor|assumption].
  - destruct (p x), (p y); try apply Permutation_refl. apply perm_swap.
  - now apply perm_trans with (filter p l').
Qed.

(** *** Exchanges of neighbours *)

Lemma exchange_perm (i : nat) (s : Series) : Permutation (exchange i s) s.
Proof.
  revert i. induction s as [|x rest IH]; intros i; [apply perm_nil|].
  destruct i as [|i]; simpl.
  - destruct rest as [|y rest']; [apply Permutation_refl|apply perm_swap].
  - now apply perm_skip.
Qed.

Lemma exchanged_perm (places : list nat) (s : Series) :
  Permutation (exchanged places s) s.
Proof.
  unfold exchanged. revert s.
  induction places as [|i rest IH]; intros s; simpl; [apply Permutation_refl|].
  eapply perm_trans; [apply IH|apply exchange_perm].
Qed.

Lemma exchanged_app (p1 p2 : list nat) (s : Series) :
  exchanged (p1 ++ p2) s = exchanged p2 (exchanged p1 s).
Proof.
  unfold exchanged. apply fold_left_app.
Qed.

Lemma exchanged_cons (places : list nat) (x : Timestamp * float) (s : Series) :
  exchanged (map S places) (x :: s) = x :: exchanged places s.
Proof.
  unfold exchanged. revert s.
  induction places as [|i rest IH]; intros s; [reflexivity|].
  simpl. apply IH.
Qed.

(** Exchanges of neighbours lead from a listing to any other listing of
    the same entries. *)
Lemma exchanged_reaches (s s' : Series) :
  Permutation s s' -> exists places, exchanged places s = s'.
Proof.
  induction 1 as [|x l l' Hp [places IH]|x y l|l l' l'' Hp1 [p1 IH1] Hp2 [p2 IH2]].
  - now exists [].
  - exists (map S places). rewrite exchanged_cons. now rewrite IH.
  - now exists [0%nat].
  - exists (p1 ++ p2). rewrite exchanged_app. now rewrite IH1.
Qed.

(** *** [sort_index], whatever the order it leaves equal dates in *)

Variable tie_order : Series -> list nat.

Lemma sort_index_perm (s : Series) : Permutation (sort_index tie_order s) s.
Proof.
  unfold sort_index.
  destruct (is_monotonic_increasing s); [apply Permutation_refl|].
  eapply perm_trans; [apply insertion_sort_perm|apply exchanged_perm].
Qed.

Lemma sort_index_nil_iff (s : Series) : sort_index tie_order s = [] <-> s = [].
Proof.
  split; intros H.
  - apply Permutation_nil. rewrite <- H. apply sort_index_perm.
  - now subst.
Qed.

Lemma sort_index_in (s : Series) (e : Timestamp * float) :
  In e (sort_index tie_order s) <-> In e s.
Proof.
  split; apply Permutation_in;
    [apply sort_index_perm | apply Permutation_sym, sort_index_perm].
Qed.

Lemma sort_index_in_date_order (s : Series) : in_date_order (sort_index tie_order s).
Proof.
  unfold sort_index.
  destruct (is_monotonic_increasing s) eqn:Hm.
  - now apply is_monotonic_increasing_spec.
  - apply insertion_sort_in_date_order.
Qed.

Lemma sort_index_fixes_date_order (s : Series) :
  in_date_order s -> sort_index tie_order s = s.
Proof.
  intros Hs. unfold sort_index.
  now rewrite (proj2 (is_monotonic_increasing_spec s) Hs).
Qed.

(** With pairwise distinct dates there is one date order only. *)
Lemma sort_index_distinct (s : Series) :
  NoDup (map key s) -> sort_index tie_order s = insertion_sort s.
Proof.
  intros Hnd. unfold sort_index.
  destruct (is_monotonic_increasing s) eqn:Hm.
  - symmetry. now apply insertion_sort_fixes_date_order, is_monotonic_increasing_spec.
  - symmetry. apply insertion_sort_unique; [|exact Hnd].
    apply Permutation_sym, exchanged_perm.
Qed.

Lemma sort_index_unique (s1 s2 : Series) :
  Permutation s1 s2 -> NoDup (map key s1) ->
  sort_index tie_order s1 = sort_index tie_order s2.
Proof.
  intros Hp Hnd.
  rewrite (sort_index_distinct s1 Hnd).
  rewrite (sort_index_distinct s2).
  - now apply insertion_sort_unique.
  - eapply Permutation_NoDup; [|exact Hnd]. now apply Permutation_map.
Qed.

(** The first entry of the sorted series carries the earliest date. *)
Lemma sort_index_head_earliest (s : Series) (first : Timestamp * float) (rest : Series) :
  sort_index tie_order s = first :: rest ->
  forall e, In e s -> key first <= key e.
Proof.
  intros Hs e He.
  pose proof (sort_index_in_date_order s) as Hord. rewrite Hs in Hord.
  apply (in_date_order_head first rest Hord).
  rewrite <- Hs. now apply sort_index_in.
Qed.

(** The entries the sort leaves on or after a date are those of the
    series, in date order. *)
Lemma filter_sort_index_perm (base : Timestamp) (s : Series) :
  Permutation (filter (on_or_after base) (sort_index tie_order s))
              (filter (on_or_after base) s).
Proof.
  apply filter_perm, sort_index_perm.
Qed.

Lemma filter_sort_index_sorted (base : Timestamp) (s : Series) :
  in_date_order s ->
  filter (on_or_after base) (sort_index tie_order s) = filter (on_or_after base) s
  /\ sort_index tie_order (filter (on_or_after base) s) = filter (on_or_after base) s.
Proof.
  intros Hs. rewrite (sort_index_fixes_date_order s Hs). split; [reflexivity|].
  now apply sort_index_fixes_date_order, filter_in_date_order.
Qed.

Lemma filter_sort_index_distinct (base : Timestamp) (s : Series) :
  NoDup (map key s) ->
  filter (on_or_after base) (sort_index tie_order s) =
  sort_index tie_order (filter (on_or_after base) s).
Proof.
  intros Hnd.
  rewrite (sort_index_distinct s Hnd), filter_insertion_sort.
  symmetry. apply sort_index_distinct.
  clear - Hnd. induction s as [|x rest IH]; simpl; [constructor|].
  inversion Hnd as [|? ? Hnotin Hrest]; subst.
  destruct (on_or_after base x); [|now apply IH].
  simpl. constructor; [|now apply IH].
  intros Hin. apply Hnotin.
  apply in_map_iff in Hin. destruct Hin as [e [He Hin]].
  apply filter_In in Hin. apply in_map_iff. exists e. now split.
Qed.

End SortIndex.

(** The order in which the model leaves the entries of a date can be any:
    every listing of the entries of [s] in date order is what
    [sort_index] returns for some [tie_order], when [s] is not in date
    order itself. *)
Lemma sort_index_any_order (s s' : Eir.Series) :
  Permutation s s' ->
  Revaluation.in_date_order s' ->
  Eir.is_monotonic_increasing s = false ->
  exists tie_order, Eir.sort_index tie_order s = s'.
Proof.
  intros Hp Hs' Hm.
  destruct (exchanged_reaches s s' Hp) as [places Hplaces].
  exists (fun _ => places). unfold Eir.sort_index. rewrite Hm, Hplaces.
  now apply insertion_sort_fixes_date_order.
Qed.

(** ** Summation *)

Section Summation.

Lemma pairwise_sum_eq (fuel : nat) (a : list float) :
  pairwise_sum fuel a =
  match a with
  | x0 :: x1 :: x2 :: x3 :: x4 :: x5 :: x6 :: x7 :: rest =>
      let n := List.length a in
      if (n <=? 128)%nat then add_blocks x0 x1 x2 x3 x4 x5 x6 x7 rest
      else
        match fuel with
        | O => add_blocks x0 x1 x2 x3 x4 x5 x6 x7 rest
        | S fuel' =>
            let n2 := (n / 2 - (n / 2) mod 8)%nat in
            (pairwise_sum fuel' (firstn n2 a) + pairwise_sum fuel' (skipn n2 a))%float
        end
  | _ => add_all 0%float a
  end.
Proof.
  destruct fuel; reflexivity.
Qed.

(** The depth [np_sum] allows for the halving is never used up: any depth
    from the length of the array on gives the same sum. *)
Lemma pairwise_sum_fuel (fuel fuel' : nat) (a : list float) :
  (List.length a <= fuel)%nat -> (List.length a <= fuel')%nat ->
  pairwise_sum fuel a = pairwise_sum fuel' a.
Proof.
  revert fuel' a. induction fuel as [|f IH]; intros fuel' a Hf Hf'.
  - destruct a; [|simpl in Hf; lia]. now destruct fuel'.
  - rewrite (pairwise_sum_eq (S f) a), (pairwise_sum_eq fuel' a).
    destruct a as [|x0 [|x1 [|x2 [|x3 [|x4 [|x5 [|x6 [|x7 rest]]]]]]]];
      try reflexivity.
    set (a := x0 :: x1 :: x2 :: x3 :: x4 :: x5 :: x6 :: x7 :: rest) in *.
    cbv zeta.
    destruct (Nat.leb_spec (List.length a) 128) as [Hn|Hn]; [reflexivity|].
    destruct fuel' as [|f']; [lia|].
    pose proof (Nat.div_mod_eq (List.length a) 2) as Hdiv.
    pose proof (Nat.mod_upper_bound (List.length a) 2) as Hmod.
    pose proof (Nat.mod_upper_bound (List.length a / 2) 8) as Hmod8.
    f_equal; apply IH; rewrite ?length_firstn, ?length_skipn; lia.
Qed.

(** Fewer than eight numbers are added one after the other. *)
Lemma np_sum_short (a : list float) :
  (List.length a < 8)%nat -> np_sum a = (0 + add_all 0 a)%float.
Proof.
  intros H.
  do 8 (destruct a as [|? a]; [reflexivity|]).
  simpl in H. lia.
Qed.

(** Eight to 128 numbers are added in eight running sums. *)
Lemma np_sum_blocks (x0 x1 x2 x3 x4 x5 x6 x7 : float) (rest : list float) :
  (List.length rest <= 120)%nat ->
  np_sum (x0 :: x1 :: x2 :: x3 :: x4 :: x5 :: x6 :: x7 :: rest) =
  (0 + add_blocks x0 x1 x2 x3 x4 x5 x6 x7 rest)%float.
Proof.
  intros H. unfold np_sum. rewrite pairwise_sum_eq. cbv zeta.
  destruct (Nat.leb_spec
              (List.length (x0 :: x1 :: x2 :: x3 :: x4 :: x5 :: x6 :: x7 :: rest)) 128)
    as [Hn|Hn]; [reflexivity|].
  simpl in Hn. lia.
Qed.

End Summation.

(** ** Discounting *)

Section Discounting.

Import Eir Revaluation.

Variable tie_order : Series -> list nat.
Variable libm_pow : float -> float -> float.

Lemma array_div_discounted (rate : float) (base : Timestamp) (s : Series) :
  array_div (values s) (discount_factors libm_pow rate (days_from base s)) =
  map (discounted libm_pow rate base) s.
Proof.
  unfold values, discount_factors, days_from, index, discounted.
  induction s as [|e rest IH]; simpl; [reflexivity|].
  now rewrite IH.
Qed.

Lemma compute_pv_as_sum (s : Series) (rate : float) (base : Timestamp) :
  compute_pv_of_cashflows tie_order libm_pow s rate base =
  np_sum (map (discounted libm_pow rate base)
              (filter (on_or_after base) (sort_index tie_order s))).
Proof.
  unfold compute_pv_of_cashflows, _ensure_series_index_datetime.
  destruct s as [|e rest]; [reflexivity|].
  cbv [is_empty].
  destruct (filter (on_or_after base) (sort_index tie_order (e :: rest))) as [|k kept].
  - reflexivity.
  - now rewrite array_div_discounted.
Qed.

Lemma npv_as_sum (s : Series) (base : Timestamp) (rate : float) :
  (rate <=? -0.9999999999)%float = false ->
  npv libm_pow s base rate = np_sum (map (discounted libm_pow rate base) s).
Proof.
  intros H. unfold npv. rewrite H. now rewrite array_div_discounted.
Qed.

(** Entries before the base date change nothing, for a series in date
    order and for a series of pairwise distinct dates. *)
Lemma compute_pv_of_filtered (s : Series) (rate : float) (base : Timestamp) :
  in_date_order s \/ NoDup (map key s) ->
  compute_pv_of_cashflows tie_order libm_pow s rate base =
  compute_pv_of_cashflows tie_order libm_pow (filter (on_or_after base) s) rate base.
Proof.
  intros Hs. rewrite !compute_pv_as_sum.
  destruct Hs as [Hs|Hs].
  - destruct (filter_sort_index_sorted tie_order base s Hs) as [-> ->].
    now rewrite filter_on_or_after_idem.
  - rewrite (filter_sort_index_distinct tie_order base s Hs).
    set (kept := filter (on_or_after base) s).
    rewrite (filter_all (on_or_after base) (sort_index tie_order kept));
      [reflexivity|].
    intros e He. apply sort_index_in in He. subst kept.
    now apply filter_In in He.
Qed.

(** C8.  [compute_pv_of_cashflows] is the sum numpy takes, over the
    entries dated on or after the base date, of the amount divided by
    [(1 + rate) ** (days / 365)], where [days] is the whole number of days
    from the base date to the entry's date, never negative.  The entries
    summed are exactly those of the series on or after the base date, each
    as often as it is listed, in date order: the order of the listing when
    the series is in date order, and for entries of one date else the
    order the library's sort leaves them in.  Fewer than eight of them are
    added one after the other, eight to 128 in eight running sums.
    Entries before the base date change nothing; and the value is [0]
    when no entry is on or after the base date. *)
Theorem compute_pv_of_cashflows_spec (s : Series) (rate : float) (base : Timestamp) :
  let kept := filter (on_or_after base) (sort_index tie_order s) in
  let pv := compute_pv_of_cashflows tie_order libm_pow s rate base in
  let amounts := map (discounted libm_pow rate base) kept in
  pv = np_sum amounts
  /\ ((List.length kept < 8)%nat -> pv = (0 + add_all 0 amounts)%float)
  /\ (forall x0 x1 x2 x3 x4 x5 x6 x7 rest,
         amounts = x0 :: x1 :: x2 :: x3 :: x4 :: x5 :: x6 :: x7 :: rest ->
         (List.length rest <= 120)%nat ->
         pv = (0 + add_blocks x0 x1 x2 x3 x4 x5 x6 x7 rest)%float)
  /\ Permutation kept (filter (on_or_after base) s)
  /\ in_date_order kept
  /\ (in_date_order s -> kept = filter (on_or_after base) s)
  /\ (forall e, In e kept <-> In e s /\ (toordinal base <= toordinal (fst e))%Z)
  /\ (forall e, In e kept -> (0 <= days_between (fst e) base)%Z)
  /\ (in_date_order s \/ NoDup (map key s) ->
      pv = compute_pv_of_cashflows tie_order libm_pow
             (filter (on_or_after base) s) rate base)
  /\ ((forall e, In e s -> (toordinal (fst e) < toordinal base)%Z) ->
      pv = 0%float).
Proof.
  intros kept pv amounts. subst kept pv amounts.
  assert (Hin : forall e, In e (filter (on_or_after base) (sort_index tie_order s)) <->
                          In e s /\ (toordinal base <= toordinal (fst e))%Z).
  { intros e. rewrite filter_In, sort_index_in. unfold on_or_after.
    now rewrite Z.leb_le. }
  split; [apply compute_pv_as_sum|].
  split.
  { intros Hshort. rewrite compute_pv_as_sum. apply np_sum_short.
    now rewrite length_map. }
  split.
  { intros x0 x1 x2 x3 x4 x5 x6 x7 rest Hamounts Hlen.
    rewrite compute_pv_as_sum, Hamounts. now apply np_sum_blocks. }
  split; [apply filter_sort_index_perm|].
  split; [apply filter_in_date_order, sort_index_in_date_order|].
  split; [intros Hs; now rewrite (sort_index_fixes_date_order tie_order s Hs)|].
  split; [exact Hin|].
  split; [intros e He; apply Hin in He; unfold days_between; lia|].
  split; [apply compute_pv_of_filtered|].
  intros Hbefore. rewrite compute_pv_as_sum.
  destruct (filter (on_or_after base) (sort_index tie_order s)) as [|e kept] eqn:Hk.
  - reflexivity.
  - destruct (proj1 (Hin e) (or_introl eq_refl)) as [He Hle].
    specialize (Hbefore e He). lia.
Qed.

End Discounting.

(** ** Rate extraction: the checks on the input *)

Section SignMix.

Import Eir.

Variable tie_order : Series -> list nat.
Variable libm_pow : float -> float -> float.

Lemma existsb_values (p : float -> bool) (s : Series) :
  existsb p (values s) = true <-> exists e, In e s /\ p (snd e) = true.
Proof.
  unfold values. rewrite existsb_exists. split.
  - intros [v [Hv Hp]]. apply in_map_iff in Hv. destruct Hv as [e [<- He]]. eauto.
  - intros [e [He Hp]]. exists (snd e). split; [now apply in_map|assumption].
Qed.

Lemma has_sign_mix_sorted (s : Series) :
  has_sign_mix (values (sort_index tie_order s)) = true <->
  (exists e, In e s /\ (0 <? snd e)%float = true) /\
  (exists e, In e s /\ (snd e <? 0)%float = true).
Proof.
  unfold has_sign_mix. rewrite andb_true_iff, !existsb_values.
  split; intros [[e1 [H1 P1]] [e2 [H2 P2]]]; split;
    (exists e1 + exists e2); split; try assumption;
    now apply (sort_index_in tie_order).
Qed.

(** C6.  A series that does not hold both an amount above zero and an
    amount below zero (the empty series and a series of receipts only
    among them) makes [xirr] raise a [ValueError], whatever the guess,
    the tolerance and the iteration budget: the search is never entered. *)
Theorem xirr_requires_mixed_signs (s : Series) (guess tol : float) (max_iter : Z) :
  ~ ((exists e, In e s /\ (0 <? snd e)%float = true) /\
     (exists e, In e s /\ (snd e <? 0)%float = true)) ->
  xirr tie_order libm_pow s guess tol max_iter =
  Raise (ValueError (if is_empty s then empty_message else sign_mix_message)).
Proof.
  intros Hmix. unfold xirr, _ensure_series_index_datetime.
  destruct (sort_index tie_order s) as [|first rest] eqn:Hs.
  - apply (proj1 (sort_index_nil_iff tie_order s)) in Hs. now subst.
  - destruct s as [|e s']; [discriminate Hs|]. cbv [is_empty].
    rewrite <- Hs.
    destruct (has_sign_mix (values (sort_index tie_order (e :: s')))) eqn:Hm.
    + apply has_sign_mix_sorted in Hm. contradiction.
    + reflexivity.
Qed.

End SignMix.

Lemma xirr_requires_mixed_signs_witness :
  Eir.xirr Eir.as_listed libm_unavailable Eir.receipts_only
           Eir.default_guess Eir.default_tol Eir.default_max_iter =
  Raise (ValueError Eir.sign_mix_message).
Proof.
  apply (xirr_requires_mixed_signs Eir.as_listed libm_unavailable Eir.receipts_only).
  intros [_ [e [He Hneg]]].
  simpl in He.
  repeat (destruct He as [<-|He]; [vm_compute in Hneg; discriminate Hneg|]).
  contradiction.
Defined.

(** ** Rate extraction and discounting under reordering of the series *)

Section Reordering.

Import Eir.

Variable tie_order tie_order' : Series -> list nat.
Variable libm_pow : float -> float -> float.

Lemma is_empty_perm (s1 s2 : Series) :
  Permutation s1 s2 -> is_empty s1 = is_empty s2.
Proof.
  intros Hp. destruct s1 as [|x s1'], s2 as [|y s2']; try reflexivity.
  - now apply Permutation_nil in Hp.
  - now apply Permutation_sym, Permutation_nil in Hp.
Qed.

(** Both functions read their input through [sort_index] (and through
    the test for emptiness) only. *)
Lemma compute_pv_through_sort (s1 s2 : Series) (rate : float) (base : Timestamp) :
  sort_index tie_order s1 = sort_index tie_order' s2 ->
  compute_pv_of_cashflows tie_order libm_pow s1 rate base =
  compute_pv_of_cashflows tie_order' libm_pow s2 rate base.
Proof.
  intros H. now rewrite !compute_pv_as_sum, H.
Qed.

Lemma xirr_through_sort (s1 s2 : Series) (guess tol : float) (max_iter : Z) :
  sort_index tie_order s1 = sort_index tie_order' s2 ->
  xirr tie_order libm_pow s1 guess tol max_iter =
  xirr tie_order' libm_pow s2 guess tol max_iter.
Proof.
  intros H. unfold xirr, _ensure_series_index_datetime. now rewrite H.
Qed.

(** The base date [xirr] discounts to: the date of the first entry of the
    sorted series. *)
Lemma xirr_base_date (s : Series) (guess tol : float) (max_iter : Z) :
  has_sign_mix (values (sort_index tie_order s)) = true ->
  exists base,
    In base (index s)
    /\ (forall d, In d (index s) -> (toordinal base <= toordinal d)%Z)
    /\ xirr tie_order libm_pow s guess tol max_iter =
       solve (npv libm_pow (sort_index tie_order s) base) guess tol max_iter.
Proof.
  intros Hmix. unfold xirr, _ensure_series_index_datetime.
  destruct (sort_index tie_order s) as [|first rest] eqn:Hs; [discriminate Hmix|].
  exists (fst first). split; [|split].
  - apply in_map. apply (sort_index_in tie_order). rewrite Hs. now left.
  - intros d Hd. apply in_map_iff in Hd. destruct Hd as [e [<- He]].
    apply (sort_index_head_earliest tie_order s first rest Hs e He).
  - now rewrite Hmix.
Qed.

(** C10, amended.  For a series whose dates are pairwise distinct,
    [compute_pv_of_cashflows] and [xirr] give the same result on every
    reordering of the entries, whatever the sort of the library does with
    entries of one date, as there are none; and the date [xirr] discounts
    to is the earliest date of the series, wherever it is listed. *)
Theorem reordering_distinct_dates (s1 s2 : Series) :
  Permutation s1 s2 ->
  NoDup (map key s1) ->
  (forall rate base,
      compute_pv_of_cashflows tie_order libm_pow s1 rate base =
      compute_pv_of_cashflows tie_order' libm_pow s2 rate base)
  /\ (forall guess tol max_iter,
         xirr tie_order libm_pow s1 guess tol max_iter =
         xirr tie_order' libm_pow s2 guess tol max_iter)
  /\ (forall guess tol max_iter,
         has_sign_mix (values (sort_index tie_order s2)) = true ->
         exists base,
           In base (index s2)
           /\ (forall d, In d (index s2) -> (toordinal base <= toordinal d)%Z)
           /\ xirr tie_order libm_pow s2 guess tol max_iter =
              solve (npv libm_pow (sort_index tie_order s2) base) guess tol max_iter).
Proof.
  intros Hp Hnd.
  assert (Hsort : sort_index tie_order s1 = sort_index tie_order' s2).
  { rewrite (sort_index_distinct tie_order s1 Hnd).
    rewrite (sort_index_distinct tie_order' s2).
    - now apply insertion_sort_unique.
    - eapply Permutation_NoDup; [|exact Hnd]. now apply Permutation_map. }
  split; [|split].
  - intros rate base. now apply compute_pv_through_sort.
  - intros guess tol max_iter. now apply xirr_through_sort.
  - intros guess tol max_iter. apply xirr_base_date.
Qed.

End Reordering.

Lemma reordering_distinct_dates_witness :
  Eir.xirr Eir.as_listed libm_unavailable Eir.proceeds_and_receipts
           Eir.default_guess Eir.default_tol Eir.default_max_iter =
  Eir.xirr Eir.as_listed libm_unavailable Eir.proceeds_and_receipts_shuffled
           Eir.default_guess Eir.default_tol Eir.default_max_iter.
Proof.
  assert (Hp : Permutation Eir.proceeds_and_receipts Eir.proceeds_and_receipts_shuffled).
  { unfold Eir.proceeds_and_receipts, Eir.proceeds_and_receipts_shuffled.
    eapply perm_trans; [apply perm_skip, perm_swap|].
    eapply perm_trans; [apply perm_swap|].
    apply perm_skip, perm_skip, perm_swap. }
  assert (Hnd : NoDup (map Eir.key Eir.proceeds_and_receipts)).
  { vm_compute. repeat constructor; simpl; intuition discriminate. }
  exact (proj1 (proj2 (reordering_distinct_dates Eir.as_listed Eir.as_listed libm_unavailable
                  _ _ Hp Hnd)) _ _ _).
Defined.

(** C10, as stated, fails on entries that share a date.  A series whose
    entries all fall on one day is in date order however it is listed:
    the sort hands it back as it is, and the sum of the discounted amounts
    is rounded in the order of the listing.  With 1e16, 1 and -1e16 on
    one day the present value is 0 in one order and 1 in the other, and
    [xirr] returns a rate for one and raises for the other. *)
Lemma reordering_same_day_differs :
  Permutation Eir.same_day Eir.same_day_reordered
  /\ forall tie_order libm_pow,
      Eir.compute_pv_of_cashflows tie_order libm_pow Eir.same_day
                                  0.05 Eir.new_year_2026 = 0%float
      /\ Eir.compute_pv_of_cashflows tie_order libm_pow Eir.same_day_reordered
                                     0.05 Eir.new_year_2026 = 1%float
      /\ Eir.calculate_eir_for_loan tie_order libm_pow Eir.same_day =
         Ok 4.5000499999999999%float
      /\ Eir.calculate_eir_for_loan tie_order libm_pow Eir.same_day_reordered =
         Raise (RuntimeError Eir.search_message).
Proof.
  split.
  - apply perm_skip, perm_swap.
  - intros tie_order libm_pow. repeat split; vm_compute; reflexivity.
Qed.

(** ** Rate extraction: the search *)

Section Search.

Import Eir.

Variable f : float -> float.

Lemma expand_upper_spec (f_low : float) (budget : nat) (upper : float) :
  exists k,
    (k <= budget)%nat
    /\ expand_upper f f_low budget upper (f upper) =
       (doubled k upper, f (doubled k upper))
    /\ (forall j, (j < k)%nat -> (0 <? f_low * f (doubled j upper))%float = true)
    /\ (forall j, (1 <= j < k)%nat -> (1e6 <? doubled j upper)%float = false)
    /\ (k = budget
        \/ (0 <? f_low * f (doubled k upper))%float = false
        \/ ((1 <= k)%nat /\ (1e6 <? doubled k upper)%float = true)).
Proof.
  revert upper.
  induction budget as [|b IH]; intros upper.
  - exists 0%nat. simpl. repeat split; try lia; auto.
  - simpl.
    destruct (0 <? f_low * f upper)%float eqn:Hsame.
    + destruct (1e6 <? upper * 2.0)%float eqn:Hbig.
      * exists 1%nat. simpl. split; [lia|]. split; [reflexivity|].
        split; [|split].
        -- intros j Hj. assert (j = 0)%nat by lia. now subst.
        -- intros j Hj. lia.
        -- right. right. split; [lia|assumption].
      * destruct (IH (upper * 2.0)%float) as [k [Hk [He [Hs [Hb Hstop]]]]].
        exists (S k). simpl. split; [lia|]. split; [assumption|].
        split; [|split].
        -- intros [|j] Hj; simpl; [assumption|apply Hs; lia].
        -- intros [|[|j]] Hj; simpl; try lia; [assumption|].
           apply (Hb (S j)). lia.
        -- destruct Hstop as [->|[H|[H1 H2]]]; auto.
    + exists 0%nat. simpl. split; [lia|]. split; [reflexivity|].
      split; [|split]; try (intros; lia). right. left. assumption.
Qed.

Lemma bisect_spec (tol : float) (n : nat) (a b fa fb : float) :
  bisected f tol n (a, b, fa) (bisect f tol n a b fa fb).
Proof.
  revert a b fa fb.
  induction n as [|n IH]; intros a b fa fb.
  - right. split; [reflexivity|]. intros i Hi. lia.
  - simpl. fold (midpoint a b).
    destruct (PrimFloat.abs (f (midpoint a b)) <? tol)%float eqn:Hnear.
    + left. exists 0%nat. split; [lia|]. split; [reflexivity|].
      split; [assumption|]. intros i Hi. lia.
    + assert (Hstep :
        forall a' b' fa' fb',
          narrow f (a, b, fa) = (a', b', fa') ->
          bisected f tol n (a', b', fa') (bisect f tol n a' b' fa' fb') ->
          bisected f tol (S n) (a, b, fa) (bisect f tol n a' b' fa' fb')).
      { intros a' b' fa' fb' Hn [[j [Hj [Hr [Ht Hm]]]]|[Hr Hm]].
        - left. exists (S j). split; [lia|]. cbn [narrowed]. rewrite Hn.
          split; [assumption|]. split; [assumption|].
          intros [|i] Hi; unfold missed; cbn [narrowed]; [assumption|].
          rewrite Hn. apply Hm. lia.
        - right. cbn [narrowed]. rewrite Hn. split; [assumption|].
          intros [|i] Hi; unfold missed; cbn [narrowed]; [assumption|].
          rewrite Hn. apply Hm. lia. }
      destruct (fa * f (midpoint a b) <=? 0)%float eqn:Hside.
      * apply Hstep; [|apply IH]. simpl. now rewrite Hside.
      * apply Hstep; [|apply IH]. simpl. now rewrite Hside.
Qed.

(** The fallback returns the iterate at which Newton's method converged,
    and nothing when the method gives up. *)
Lemma newton_decides (tol : float) (n : nat) (guess : float) :
  match newton f tol n guess with
  | Some r => newton_converged f tol n guess r
  | None => newton_gave_up f tol n guess
  end.
Proof.
  revert guess.
  induction n as [|n IH]; intros guess.
  - right. intros i Hi. lia.
  - simpl. fold (step_size guess). fold (slope f guess).
    destruct (slope f guess =? 0)%float eqn:Hslope.
    { left. exists 0%nat. split; [lia|]. split; [exact Hslope|].
      intros i Hi. lia. }
    fold (newton_step f guess).
    destruct (PrimFloat.abs (newton_step f guess - guess) <? tol)%float eqn:Hnear.
    { exists 0%nat. simpl. split; [lia|].
      split; [reflexivity|]. split; [assumption|].
      split; intros i Hi; [|lia]. assert (i = 0)%nat by lia. now subst. }
    specialize (IH (newton_step f guess)).
    destruct (newton f tol n (newton_step f guess)) as [r|].
    + destruct IH as [k [Hk [Hr [Ht [Hs Hm]]]]].
      exists (S k). split; [lia|]. split; [assumption|]. split; [assumption|].
      split.
      * intros [|i] Hi; simpl; [assumption|]. apply Hs. lia.
      * intros [|i] Hi; simpl; [assumption|]. apply (Hm i). lia.
    + destruct IH as [[k [Hk [Hz Hm]]]|Hm].
      * left. exists (S k). split; [lia|]. split; [exact Hz|].
        intros [|i] Hi; simpl; [now split|]. apply (Hm i). lia.
      * right. intros [|i] Hi; simpl; [now split|]. apply (Hm i). lia.
Qed.

Lemma newton_converged_unique (tol : float) (n : nat) (guess r r' : float) :
  newton_converged f tol n guess r ->
  newton_converged f tol n guess r' ->
  r = r'.
Proof.
  intros [k [Hk [Hr [Ht [Hs Hm]]]]] [k' [Hk' [Hr' [Ht' [Hs' Hm']]]]].
  destruct (Nat.lt_total k k') as [Hlt|[Heq|Hgt]].
  - specialize (Hm' k Hlt). rewrite <- Hr in Hm'. congruence.
  - subst k'. congruence.
  - specialize (Hm k' Hgt). rewrite <- Hr' in Hm. congruence.
Qed.

Lemma newton_converged_or_gave_up (tol : float) (n : nat) (guess r : float) :
  newton_converged f tol n guess r -> ~ newton_gave_up f tol n guess.
Proof.
  intros [k [Hk [Hr [Ht [Hs Hm]]]]] [[k' [Hk' [Hz Hm']]]|Hm'].
  - destruct (Nat.le_gt_cases k' k) as [Hle|Hgt].
    + specialize (Hs k' Hle). congruence.
    + destruct (Hm' k Hgt) as [_ Hstep]. rewrite <- Hr in Hstep. congruence.
  - destruct (Hm' k Hk) as [_ Hstep]. rewrite <- Hr in Hstep. congruence.
Qed.

Lemma solve_bracketed (guess tol : float) (max_iter : Z) (k : nat) :
  expand_upper f (f lower0) 50 upper0 (f upper0) =
    (doubled k upper0, f (doubled k upper0)) ->
  (0 <? f lower0 * f (doubled k upper0))%float = false ->
  solve f guess tol max_iter =
  Ok (bisect f tol (Z.to_nat max_iter) lower0 (doubled k upper0)
             (f lower0) (f (doubled k upper0))).
Proof.
  intros He Hb. unfold solve. rewrite He. now rewrite Hb.
Qed.

Lemma solve_unbracketed (guess tol : float) (max_iter : Z) (k : nat) :
  expand_upper f (f lower0) 50 upper0 (f upper0) =
    (doubled k upper0, f (doubled k upper0)) ->
  (0 <? f lower0 * f (doubled k upper0))%float = true ->
  solve f guess tol max_iter =
  match newton f tol (Z.to_nat max_iter) guess with
  | Some r => Ok r
  | None => Raise (RuntimeError search_message)
  end.
Proof.
  intros He Hb. unfold solve. rewrite He. now rewrite Hb.
Qed.

(** The search of [xirr], for any function [f] in place of [npv]. *)
Lemma solve_strategy (guess tol : float) (max_iter : Z) :
  exists k,
    (k <= 50)%nat
    /\ (forall j, (j < k)%nat ->
                  (0 <? f lower0 * f (doubled j upper0))%float = true)
    /\ (forall j, (1 <= j < k)%nat -> (1e6 <? doubled j upper0)%float = false)
    /\ (k = 50%nat
        \/ (0 <? f lower0 * f (doubled k upper0))%float = false
        \/ ((1 <= k)%nat /\ (1e6 <? doubled k upper0)%float = true))
    /\ ((0 <? f lower0 * f (doubled k upper0))%float = false ->
        exists r,
          solve f guess tol max_iter = Ok r
          /\ bisected f tol (Z.to_nat max_iter)
                      (lower0, doubled k upper0, f lower0) r)
    /\ ((0 <? f lower0 * f (doubled k upper0))%float = true ->
        (forall r, solve f guess tol max_iter = Ok r <->
                   newton_converged f tol (Z.to_nat max_iter) guess r)
        /\ (solve f guess tol max_iter = Raise (RuntimeError search_message) <->
            newton_gave_up f tol (Z.to_nat max_iter) guess)
        /\ (forall e, solve f guess tol max_iter = Raise e ->
                      e = RuntimeError search_message)).
Proof.
  destruct (expand_upper_spec (f lower0) 50 upper0)
    as [k [Hk [He [Hs [Hb Hstop]]]]].
  exists k. repeat (split; [assumption|]). split.
  - intros Hbr. eexists. split; [apply (solve_bracketed _ _ _ k He Hbr)|].
    apply bisect_spec.
  - intros Hbr. rewrite (solve_unbracketed _ _ _ k He Hbr).
    pose proof (newton_decides tol (Z.to_nat max_iter) guess) as Hn.
    destruct (newton f tol (Z.to_nat max_iter) guess) as [r|].
    + split; [|split].
      * intros r'. split.
        -- intros Hr'. injection Hr' as <-. exact Hn.
        -- intros Hc. f_equal.
           exact (newton_converged_unique _ _ _ _ _ Hn Hc).
      * split; [intros H; discriminate H|].
        intros Hg. exfalso.
        exact (newton_converged_or_gave_up _ _ _ _ Hn Hg).
      * intros e H. discriminate H.
    + split; [|split].
      * intros r'. split; [intros H; discriminate H|].
        intros Hc. exfalso.
        exact (newton_converged_or_gave_up _ _ _ _ Hc Hn).
      * split; [intros _; exact Hn|reflexivity].
      * intros e H. now injection H as <-.
Qed.

End Search.

Section Strategy.

Import Eir.

Variable tie_order : Series -> list nat.
Variable libm_pow : float -> float -> float.

Lemma xirr_is_solve (s : Series) (guess tol : float) (max_iter : Z)
      (first : Timestamp * float) (rest : Series) :
  sort_index tie_order s = first :: rest ->
  has_sign_mix (values (sort_index tie_order s)) = true ->
  xirr tie_order libm_pow s guess tol max_iter =
  solve (npv libm_pow (sort_index tie_order s) (fst first)) guess tol max_iter.
Proof.
  intros Hs Hmix. unfold xirr, _ensure_series_index_datetime.
  rewrite Hs in *. now rewrite Hmix.
Qed.

(** C7.  On a series with both signs, [xirr] searches a root of [npv] as
    follows.  The bounds start at -0.9999 and 10; while [npv] has the same
    sign at both, the upper bound is doubled, [k] times in all: at most
    fifty times, and never again once it is above 1e6.  If the values at
    the bounds then differ in sign, [xirr] returns what bisection of that
    bracket yields: the first midpoint [m] with [|npv m| < tol], or the
    midpoint of the last bracket when the iteration budget is spent.  If
    they do not, [xirr] runs Newton's method with a finite-difference
    slope from the caller's guess (0.05 when [calculate_eir_for_loan]
    calls it): it returns the iterate at which the method converged
    within the budget, whenever there is one, and raises a
    [RuntimeError], and nothing else, exactly when the method gives up,
    on a slope of zero or with the budget spent. *)
Theorem xirr_search_strategy (s : Series) (guess tol : float) (max_iter : Z)
        (first : Timestamp * float) (rest : Series) :
  sort_index tie_order s = first :: rest ->
  has_sign_mix (values (sort_index tie_order s)) = true ->
  let f := npv libm_pow (sort_index tie_order s) (fst first) in
  let outcome := xirr tie_order libm_pow s guess tol max_iter in
  lower0 = (-0.9999)%float /\ upper0 = 10%float
  /\ calculate_eir_for_loan tie_order libm_pow s = xirr tie_order libm_pow s 0.05 1e-8 200
  /\ exists k,
      (k <= 50)%nat
      /\ (forall j, (j < k)%nat ->
                    (0 <? f lower0 * f (doubled j upper0))%float = true)
      /\ (forall j, (1 <= j < k)%nat -> (1e6 <? doubled j upper0)%float = false)
      /\ (k = 50%nat
          \/ (0 <? f lower0 * f (doubled k upper0))%float = false
          \/ ((1 <= k)%nat /\ (1e6 <? doubled k upper0)%float = true))
      /\ ((0 <? f lower0 * f (doubled k upper0))%float = false ->
          exists r,
            outcome = Ok r
            /\ bisected f tol (Z.to_nat max_iter)
                        (lower0, doubled k upper0, f lower0) r)
      /\ ((0 <? f lower0 * f (doubled k upper0))%float = true ->
          (forall r, outcome = Ok r <->
                     newton_converged f tol (Z.to_nat max_iter) guess r)
          /\ (outcome = Raise (RuntimeError search_message) <->
              newton_gave_up f tol (Z.to_nat max_iter) guess)
          /\ (forall e, outcome = Raise e -> e = RuntimeError search_message)).
Proof.
  intros Hs Hmix f outcome.
  split; [reflexivity|]. split; [reflexivity|]. split; [reflexivity|].
  subst outcome. rewrite (xirr_is_solve s guess tol max_iter first rest Hs Hmix).
  apply solve_strategy.
Qed.

End Strategy.

Lemma xirr_search_strategy_witness :
  Eir.sort_index Eir.as_listed Eir.proceeds_and_receipts_shuffled =
    (mkdate 2026 1 1, (-950)%float) :: List.tl Eir.proceeds_and_receipts
  /\ Eir.has_sign_mix
       (Eir.values (Eir.sort_index Eir.as_listed Eir.proceeds_and_receipts_shuffled))
     = true
  /\ Eir.calculate_eir_for_loan Eir.as_listed libm_unavailable
                                Eir.proceeds_and_receipts_shuffled =
     Eir.xirr Eir.as_listed libm_unavailable Eir.proceeds_and_receipts_shuffled
              0.05 1e-8 200.
Proof.
  split; [reflexivity|]. split; [reflexivity|].
  exact (proj1 (proj2 (proj2
    (xirr_search_strategy Eir.as_listed libm_unavailable Eir.proceeds_and_receipts_shuffled
       0.05 1e-8 200 _ _ eq_refl eq_refl)))).
Defined.

(** ** The amortisation walk *)

Section Walk.

Import Hazel.

Variable libm_pow : float -> float -> float.

Lemma getitem_last {A : Type} (l : list A) (x : A) :
  getitem (l ++ [x]) (List.length l) = Ok x.
Proof.
  unfold getitem. rewrite nth_error_app2 by lia.
  now rewrite Nat.sub_diag.
Qed.

Lemma nth_error_last {A : Type} (l : list A) (x : A) :
  nth_error (l ++ [x]) (List.length l) = Some x.
Proof.
  rewrite nth_error_app2 by lia. now rewrite Nat.sub_diag.
Qed.

Lemma getitem_in_range {A : Type} (l : list A) (i : nat) :
  (i < List.length l)%nat -> exists x, getitem l i = Ok x /\ nth_error l i = Some x.
Proof.
  intros H. unfold getitem.
  destruct (nth_error l i) as [x|] eqn:E.
  - now exists x.
  - apply nth_error_None in E. lia.
Qed.

Lemma at_days_in_period_in_range (s : list schedule_row) (i : nat) :
  (i < List.length s)%nat -> exists d, at_days_in_period s i = Ok d.
Proof.
  intros H. unfold at_days_in_period.
  destruct (nth_error s i) as [r|] eqn:E.
  - now exists (days_in_period r).
  - apply nth_error_None in E. lia.
Qed.

Lemma set_books_books (self : loanSchedule) : set_books self (books self) = self.
Proof. now destruct self. Qed.

Lemma payment_schedule_set_books (self : loanSchedule) (b : ledger) :
  payment_schedule (set_books self b) = payment_schedule self.
Proof. reflexivity. Qed.

Lemma set_books_set_books (self : loanSchedule) (b b' : ledger) :
  set_books (set_books self b) b' = set_books self b'.
Proof. reflexivity. Qed.

(** One payment period appends one entry to each list and keeps what the
    earlier periods recorded. *)
Lemma accrue_ok (payment : float) (self : loanSchedule) (k : nat)
      (total : float) (fees : float -> float) :
  books_ok libm_pow payment self k (books self) ->
  (1 <= k < List.length (payment_schedule self))%nat ->
  total = total_due payment self k ->
  (forall fee, fees fee = fee_left self k fee) ->
  exists b,
    accrue libm_pow payment self k total fees = Ok (set_books self b)
    /\ books_ok libm_pow payment self (S k) b.
Proof.
  intros (Hi & Hp & Hf & Ht & Ho & Hc & Hf0 & Hc0 & Hacc) Hk Htotal Hfees.
  destruct (getitem_in_range (closing_balance (books self)) (k - 1))
    as [previous [Hg Hn]]; [lia|].
  destruct (at_days_in_period_in_range (payment_schedule self) (k - 1))
    as [days Hd]; [lia|].
  destruct (getitem_in_range (fees_outstanding (books self)) (k - 1))
    as [fee [Hgf Hnf]]; [lia|].
  assert (Hlast : forall (l : list float) x,
             List.length l = k -> nth_error (l ++ [x]) k = Some x).
  { intros l x <-. apply nth_error_last. }
  pose proof (getitem_last (opening_balance (books self)) previous) as Hopen.
  pose proof (nth_error_last (opening_balance (books self)) previous) as Hopen'.
  rewrite Ho in Hopen, Hopen'.
  unfold accrue. rewrite Hg. cbn [bind].
  rewrite Hopen. cbn [bind].
  rewrite Hd. cbn [bind]. rewrite Hgf. cbn [bind].
  eexists. split; [reflexivity|].
  unfold books_ok. cbn [interest_payments principal_payments fees_outstanding
                        total_payments opening_balance closing_balance].
  rewrite !length_app. cbn [List.length].
  repeat (split; [lia|]).
  split; [rewrite nth_error_app1 by lia; exact Hf0|].
  split; [rewrite nth_error_app1 by lia; exact Hc0|].
  intros i Hik.
  destruct (Nat.eq_dec i k) as [->|Hne].
  - split.
    + exists previous, days.
      cbn [interest_payments principal_payments opening_balance closing_balance].
      split; [rewrite nth_error_app1 by lia; exact Hn|].
      split; [exact Hopen'|].
      split; [exact Hd|].
      cbv zeta. repeat split; now apply Hlast.
    + exists fee. cbn [fees_outstanding total_payments].
      split; [rewrite nth_error_app1 by lia; exact Hnf|].
      rewrite <- Hfees, <- Htotal. split; now apply Hlast.
  - destruct (Hacc i) as [[opened [d (H1 & H2 & H3 & H4 & H5 & H6)]]
                            [fee' (F1 & F2 & F3)]]; [lia|].
    split.
    + exists opened, d.
      cbn [interest_payments principal_payments opening_balance closing_balance].
      cbv zeta. rewrite !nth_error_app1 by lia. auto 7.
    + exists fee'. cbn [fees_outstanding total_payments].
      rewrite !nth_error_app1 by lia. auto.
Qed.

Lemma period_step_ok (payment : float) (self : loanSchedule) (k : nat) :
  books_ok libm_pow payment self k (books self) ->
  (1 <= k < List.length (payment_schedule self))%nat ->
  exists b,
    period_step libm_pow payment self k = Ok (set_books self b)
    /\ books_ok libm_pow payment self (S k) b.
Proof.
  intros Hb Hk. unfold period_step.
  destruct (Nat.eqb_spec k 0) as [->|_]; [lia|].
  destruct (k =? 1)%nat eqn:E1.
  - apply accrue_ok; try assumption; unfold total_due, fee_left; now rewrite E1.
  - destruct (k =? List.length (payment_schedule self) - 1)%nat eqn:E2;
      apply accrue_ok; try assumption; unfold total_due, fee_left;
      now rewrite E1, E2.
Qed.

Lemma walk_snoc (payment : float) (self : loanSchedule) (index : list nat) (k : nat) :
  walk libm_pow payment self (index ++ [k]) =
  bind (walk libm_pow payment self index)
       (fun s => period_step libm_pow payment s k).
Proof.
  unfold walk. now rewrite fold_left_app.
Qed.

Lemma walk_ok (payment : float) (self : loanSchedule) (k : nat) :
  books_ok libm_pow payment self 1 (books self) ->
  (S k <= List.length (payment_schedule self))%nat ->
  exists b,
    walk libm_pow payment self (seq 0 (S k)) = Ok (set_books self b)
    /\ books_ok libm_pow payment self (S k) b.
Proof.
  intros H1. induction k as [|k IH]; intros Hk.
  - exists (books self). split; [|assumption].
    cbn. now rewrite set_books_books.
  - destruct IH as [b [Hw Hb]]; [lia|].
    rewrite seq_S, walk_snoc, Hw. cbn [bind plus].
    destruct (period_step_ok payment (set_books self b) (S k)) as [b' [Hs Hb']];
      [exact Hb | rewrite payment_schedule_set_books; lia |].
    exists b'. split; [|exact Hb'].
    rewrite Hs. reflexivity.
Qed.

Lemma initial_books_ok (payment : float) (self : loanSchedule) :
  books_ok libm_pow payment self 1 (initial_books self).
Proof.
  unfold books_ok, initial_books. cbn. repeat (split; [reflexivity|]).
  intros i Hi. lia.
Qed.

(** [calculate_payment] returns, for every payment and every object, and
    leaves books in which every period is recorded. *)
Lemma calculate_payment_ok (payment : float) (self : loanSchedule) :
  exists value b,
    calculate_payment libm_pow payment self = Ok (value, set_books self b)
    /\ books_ok libm_pow payment self
                (Nat.max 1 (List.length (payment_schedule self))) b.
Proof.
  unfold calculate_payment.
  rewrite payment_schedule_set_books.
  destruct (List.length (payment_schedule self)) as [|n] eqn:Hlen.
  - cbn [seq walk fold_left bind].
    rewrite payment_schedule_set_books, Hlen. cbn.
    eexists. exists (initial_books self). split; [reflexivity|].
    apply initial_books_ok.
  - destruct (walk_ok payment (set_books self (initial_books self)) n)
      as [b [Hw Hb]].
    + apply initial_books_ok.
    + rewrite payment_schedule_set_books. lia.
    + rewrite Hw. cbn [bind].
      rewrite set_books_set_books, payment_schedule_set_books, Hlen.
      change (books_ok libm_pow payment self (S n) b) in Hb.
      pose proof Hb as (Hi & Hp & Hf & Ht & Ho & Hc & _).
      destruct (getitem_in_range (closing_balance b) (S n - 1)) as [v [Hg _]];
        [lia|].
      cbn [books set_books]. rewrite Hg. cbn [bind].
      eexists. exists b. split; [reflexivity|].
      replace (Nat.max 1 (S n)) with (S n) by lia. exact Hb.
Qed.

End Walk.

(** ** The two day counts *)



Section Amortisation.

Import Hazel.

Variable libm_pow : float -> float -> float.


(** The fees at the two ends of a schedule of two periods and more:
    period 1 is charged the payment and the start fee, the last period
    the payment and the end fee, and the fee balance, which starts at the
    sum of the two fees, falls by each fee in its period. *)
Theorem fee_boundaries (payment : float) (self : loanSchedule) :
  (3 <= List.length (payment_schedule self))%nat ->
  let last := (List.length (payment_schedule self) - 1)%nat in
  exists value self',
    calculate_payment libm_pow payment self = Ok (value, self')
    /\ nth_error (total_payments (books self')) 1 =
       Some (payment + start_fee self)%float
    /\ nth_error (fees_outstanding (books self')) 1 =
       Some (start_fee self + end_fee self - start_fee self)%float
    /\ nth_error (total_payments (books self')) last =
       Some (payment + end_fee self)%float
    /\ exists fee,
        nth_error (fees_outstanding (books self')) (last - 1) = Some fee
        /\ nth_error (fees_outstanding (books self')) last =
           Some (fee - end_fee self)%float.
Proof.
  intros Hlen last.
  destruct (calculate_payment_ok libm_pow payment self) as [value [b [Hc Hb]]].
  exists value, (set_books self b). split; [exact Hc|].
  cbn [books set_books].
  destruct Hb as (_ & _ & _ & _ & _ & _ & Hf0 & _ & Hacc).
  destruct (Hacc 1%nat) as [_ [fee1 (F1 & F2 & F3)]]; [lia|].
  destruct (Hacc last) as [_ [fee (L1 & L2 & L3)]]; [subst last; lia|].
  change (1 - 1)%nat with 0%nat in F1. rewrite Hf0 in F1. injection F1 as <-.
  unfold fee_left, total_due in *. cbn [Nat.eqb] in F2, F3.
  assert (E1 : (last =? 1)%nat = false) by (apply Nat.eqb_neq; subst last; lia).
  assert (E2 : (last =? List.length (payment_schedule self) - 1)%nat = true)
    by (apply Nat.eqb_eq; reflexivity).
  rewrite E1, E2 in L2, L3.
  repeat (split; [assumption|]).
  exists fee. split; assumption.
Qed.

End Amortisation.

Lemma fee_boundaries_witness :
  exists value self',
    Hazel.calculate_payment libm_unavailable 90 (Hazel.scheduled Hazel.twelve_months)
    = Ok (value, self')
    /\ nth_error (Hazel.total_payments (Hazel.books self')) 12 = Some 290%float.
Proof.
  destruct (fee_boundaries libm_unavailable 90 (Hazel.scheduled Hazel.twelve_months))
    as [value [self' (Hc & _ & _ & Hlast & _)]].
  - vm_compute. lia.
  - exists value, self'. split; [exact Hc|]. exact Hlast.
Defined.

(** ** A schedule of one period *)

(** C5, at one period.  The loop takes its first payment branch for
    period 1 and never reaches the branch of the last period: on a loan
    of one period, with fees of 100 and 200, the only payment is charged
    [payment + 100], not [payment + 100 + 200], and the fee balance ends
    at 200, not at 0. *)
Theorem single_period_end_fee_not_charged (libm_pow : float -> float -> float)
        (payment : float) :
  List.length (Hazel.payment_schedule (Hazel.scheduled Hazel.one_period)) = 2%nat
  /\ exists value self',
      Hazel.calculate_payment libm_pow payment (Hazel.scheduled Hazel.one_period)
      = Ok (value, self')
      /\ Hazel.total_payments (Hazel.books self') = [0; payment + 100]%float
      /\ Hazel.fees_outstanding (Hazel.books self') = [300; 200]%float.
Proof.
  split; [reflexivity|].
  eexists. eexists. split; [cbv; reflexivity|].
  split; reflexivity.
Qed.

(** ** The constructor *)

Section Constructor.

Import Hazel.

Variable libm_pow : float -> float -> float.
Variable np_round2 : float -> float.

(** C1, on equal days.  When the start day is the payment day, and so
    whenever no payment day is given, no branch assigns
    [first_payment_date], and reading it to build the date range raises an
    [AttributeError]: the constructor fails for every such loan. *)
Theorem first_payment_date_unset_on_equal_days
        (amount_ rate_ : float) (start_date_ : Timestamp) (payments_ : Z)
        (residual_ : float) (frequency_ : string) (start_fee_ end_fee_ : float) :
  init libm_pow np_round2 amount_ rate_ start_date_ payments_ residual_
       None frequency_ start_fee_ end_fee_
  = match dict_getitem frequency_dict frequency_ with
    | Ok _ => Raise (AttributeError "first_payment_date")
    | Raise e => Raise e
    end
  /\ init libm_pow np_round2 amount_ rate_ (mkdate 2023 1 15) payments_ residual_
          (Some 15%Z) "monthly" start_fee_ end_fee_
     = Raise (AttributeError "first_payment_date").
Proof.
  split.
  - unfold init. destruct (dict_getitem frequency_dict frequency_) as [freq|e];
      [|reflexivity].
    cbn [bind]. unfold generate_schedule, assign_first_payment_date, blank.
    cbn [payment_date start_date]. now rewrite Z.ltb_irrefl.
  - reflexivity.
Qed.

(** C3, on a negative principal and on no payments.  The constructor
    checks none of its arguments.  A principal of -1000 (at rate 0, where
    the power is [pow(1, y) = 1]) goes through the schedule, the payment
    search and the walk, and comes back as an object with a payment of
    -83.33 and its books; a count of zero payments gets as far as the
    division [amount / payments], after the schedule was generated. *)
Theorem negative_principal_is_amortised :
  (exists self,
      init libm_pow np_round2 (-1000) 0 (mkdate 2023 1 1) 12 0 (Some 15%Z)
           "monthly" 0 0 = Ok self
      /\ monthly_payment self = Some (-83.333333333333329)%float
      /\ List.length (closing_balance (books self)) = 13%nat
      /\ nth_error (closing_balance (books self)) 0 = Some (-1000)%float)
  /\ init libm_pow np_round2 1000 0.05 (mkdate 2023 1 1) 0 0 (Some 15%Z)
          "monthly" 0 0 = Raise ZeroDivisionError.
Proof.
  split.
  - eexists. split; [cbv; reflexivity|].
    repeat split; reflexivity.
  - reflexivity.
Qed.

End Constructor.

(** ** The payment search *)

(** C2, on exhaustion.  When the hundred iterations pass without a step
    shorter than the tolerance, [fsolve] comes to the end of its body and
    returns [None]; it raises nothing.  Newton's method on
    [x*x*x - 2*x + 2] from 0 is such a search: it goes from 0 to 1 and
    back.  A budget of no iterations returns [None] at once. *)
Theorem fsolve_exhaustion_returns_None :
  Hazel.fsolve (Hazel.pure_callable Hazel.cubic) 0
               Hazel.default_xtol Hazel.default_max_iter tt = Ok (None, tt)
  /\ forall (St : Type) (func : @Hazel.callable St) (x0 xtol : float) (st : St),
      Hazel.fsolve func x0 xtol 0 st = Ok (None, st).
Proof.
  split.
  - vm_compute. reflexivity.
  - intros. reflexivity.
Qed.

(** ** The schedule of payment dates *)

Section Schedule.

Import Hazel.

Lemma days_column_length (dates : list Timestamp) :
  List.length (days_column dates) = List.length dates.
Proof.
  induction dates as [|d rest IH]; [reflexivity|].
  cbn [days_column List.length]. now rewrite IH.
Qed.

Lemma schedule_of_dates_dates (dates : list Timestamp) :
  map date (schedule_of_dates dates) = dates.
Proof.
  unfold schedule_of_dates. rewrite map_map. cbn [date].
  pose proof (days_column_length dates) as Hlen.
  revert Hlen. generalize (days_column dates) as column.
  induction dates as [|d rest IH]; intros [|c column] Hlen;
    try discriminate Hlen; [reflexivity|].
  cbn. f_equal. apply IH. now injection Hlen.
Qed.

(** Each date of the range is the one before it, moved on by the offset. *)
Lemma date_range_from_step (cur : Timestamp) (periods : nat) (months : Z)
      (k : nat) (d : Timestamp) :
  nth_error (date_range_from cur periods months) k = Some d ->
  (S k < periods)%nat ->
  nth_error (date_range_from cur periods months) (S k) =
  Some (add_months d months).
Proof.
  revert cur k. induction periods as [|n IH]; intros cur k Hk Hlt; [lia|].
  destruct k as [|k].
  - cbn in Hk. injection Hk as <-.
    destruct n as [|n]; [lia|]. reflexivity.
  - cbn [date_range_from nth_error] in *. apply IH; [assumption|lia].
Qed.

Lemma date_range_from_length (cur : Timestamp) (periods : nat) (months : Z) :
  List.length (date_range_from cur periods months) = periods.
Proof.
  revert cur. induction periods as [|n IH]; intros cur; [reflexivity|].
  cbn. now rewrite IH.
Qed.

Lemma date_range_from_head (cur : Timestamp) (periods : nat) (months : Z) :
  (1 <= periods)%nat ->
  nth_error (date_range_from cur periods months) 0 = Some cur.
Proof.
  destruct periods; [lia|reflexivity].
Qed.

(** Assigning the first payment date leaves the terms of the loan alone. *)
Lemma assign_first_payment_date_frame (self self' : loanSchedule) :
  assign_first_payment_date self = Ok self' ->
  payments self' = payments self
  /\ frequency self' = frequency self
  /\ start_date self' = start_date self.
Proof.
  unfold assign_first_payment_date.
  destruct (payment_date self <? day (start_date self))%Z.
  - destruct (replace_day (month_begin (start_date self)) (payment_date self));
      cbn [bind]; intros H; [injection H as <-; now cbn | discriminate H].
  - destruct (day (start_date self) <? payment_date self)%Z.
    + destruct (replace_day (start_date self) (payment_date self)) as [d|[]];
        try (intros H; discriminate H).
      * intros H. injection H as <-. now cbn.
      * destruct (replace_day (month_begin (start_date self)) (payment_date self));
          cbn [bind]; intros H; [injection H as <-; now cbn | discriminate H].
    + intros H. injection H as <-. auto.
Qed.

(** An offset that moves forward yields [periods] dates. *)
Lemma date_range_forward (start : Timestamp) (periods months : Z) :
  (1 <= months)%Z ->
  date_range start periods months =
  Ok (date_range_from start (Z.to_nat periods) months).
Proof.
  intros H. unfold date_range.
  destruct (Z.ltb_spec 0 months); [reflexivity|lia].
Qed.

Lemma generate_schedule_dates (self self' : loanSchedule)
      (schedule : list schedule_row) :
  generate_schedule self = Ok (schedule, self') ->
  exists first payment_dates,
    first_payment_date self' = Some first
    /\ date_range first (payments self) (frequency self) = Ok payment_dates
    /\ map date schedule = start_date self :: payment_dates.
Proof.
  unfold generate_schedule.
  destruct (assign_first_payment_date self) as [assigned|e] eqn:Ha;
    cbn [bind]; [|intros H; discriminate H].
  destruct (assign_first_payment_date_frame _ _ Ha) as (Hp & Hf & Hs).
  destruct (first_payment_date assigned) as [first|] eqn:Hfirst;
    [|intros H; discriminate H].
  rewrite Hp, Hf, Hs.
  destruct (date_range first (payments self) (frequency self))
    as [payment_dates|e] eqn:Hr; cbn [bind]; intros H; [|discriminate H].
  injection H as <- <-. exists first, payment_dates.
  split; [assumption|]. split; [exact Hr|].
  now rewrite schedule_of_dates_dates.
Qed.

(** With an offset of a month or more, the schedule is the start date,
    then [payments] dates of which the first is the first payment date
    and each next one is the date before it moved on by [frequency]
    calendar months. *)
Lemma payment_dates_step (self self' : loanSchedule)
      (schedule : list schedule_row) :
  generate_schedule self = Ok (schedule, self') ->
  (1 <= frequency self)%Z ->
  nth_error (map date schedule) 0 = Some (start_date self)
  /\ List.length schedule = S (Z.to_nat (payments self))
  /\ ((1 <= payments self)%Z ->
      nth_error (map date schedule) 1 = first_payment_date self')
  /\ forall k d,
      (1 <= k)%nat ->
      (S k < List.length schedule)%nat ->
      nth_error (map date schedule) k = Some d ->
      nth_error (map date schedule) (S k) = Some (add_months d (frequency self)).
Proof.
  intros Hg Hfreq.
  destruct (generate_schedule_dates _ _ _ Hg) as (first & dates & Hfirst & Hr & Hdates).
  rewrite date_range_forward in Hr by assumption. injection Hr as <-.
  assert (Hlen : List.length schedule = S (Z.to_nat (payments self))).
  { rewrite <- (length_map date), Hdates. cbn [List.length].
    now rewrite date_range_from_length. }
  rewrite Hdates. split; [reflexivity|]. split; [exact Hlen|]. split.
  - intros Hp. cbn [nth_error]. rewrite Hfirst.
    apply date_range_from_head. lia.
  - intros [|k] d Hk Hlt Hd; [lia|].
    cbn [nth_error] in *.
    apply date_range_from_step; [assumption|lia].
Qed.

End Schedule.

(** C4.  The table [frequency_dict] holds 4 for "quarterly" and 5 for
    "semi-annually" (beside 1 for "monthly" and 12 for "annually"), and
    [generate_schedule] hands the integer to [DateOffset] as a number of
    months: nothing divides 12 by it.  Each payment date is the one
    before it moved on by that many months, so a quarterly loan pays every
    four months: with the first payment on 15 January 2023 the next ones
    fall on 15 May and 15 September, and 15 April, three months
    ([12 / 4]) on, is no payment date. *)
Theorem quarterly_dates_four_months_apart :
  Hazel.dict_getitem Hazel.frequency_dict "monthly" = Ok 1%Z
  /\ Hazel.dict_getitem Hazel.frequency_dict "quarterly" = Ok 4%Z
  /\ Hazel.dict_getitem Hazel.frequency_dict "semi-annually" = Ok 5%Z
  /\ Hazel.dict_getitem Hazel.frequency_dict "annually" = Ok 12%Z
  /\ (forall (self self' : Hazel.loanSchedule) (schedule : list Hazel.schedule_row),
         Hazel.generate_schedule self = Ok (schedule, self') ->
         (1 <= Hazel.frequency self)%Z ->
         forall k d,
           (1 <= k)%nat ->
           (S k < List.length schedule)%nat ->
           nth_error (map Hazel.date schedule) k = Some d ->
           nth_error (map Hazel.date schedule) (S k) =
           Some (add_months d (Hazel.frequency self)))
  /\ Hazel.frequency Hazel.three_quarters = 4%Z
  /\ map Hazel.date (Hazel.payment_schedule (Hazel.scheduled Hazel.three_quarters))
     = [mkdate 2023 1 1; mkdate 2023 1 15; mkdate 2023 5 15; mkdate 2023 9 15]
  /\ add_months (mkdate 2023 1 15) (12 / 4) = mkdate 2023 4 15
  /\ ~ In (mkdate 2023 4 15)
          (map Hazel.date (Hazel.payment_schedule (Hazel.scheduled Hazel.three_quarters))).
Proof.
  repeat (split; [reflexivity|]).
  split.
  { intros self self' schedule Hg Hfreq.
    exact (proj2 (proj2 (proj2 (payment_dates_step self self' schedule Hg Hfreq)))). }
  repeat (split; [reflexivity|]).
  cbn. intros H. repeat (destruct H as [H|H]; [discriminate H|]). exact H.
Qed.

(** ** The first payment date *)

Section FirstPayment.

Import Hazel.

Local Open Scope Z_scope.

Lemma days_in_month_at_least_28 (y m : Z) : 28 <= days_in_month y m.
Proof.
  unfold days_in_month.
  destruct (m =? 2); [destruct (is_leap y); lia|].
  destruct ((m =? 4) || (m =? 6) || (m =? 9) || (m =? 11))%bool; lia.
Qed.

Lemma replace_day_up_to_28 (d : Timestamp) (n : Z) :
  1 <= n <= 28 -> replace_day d n = Ok (mkdate (year d) (month d) n).
Proof.
  intros Hn. unfold replace_day.
  pose proof (days_in_month_at_least_28 (year d) (month d)).
  destruct (Z.leb_spec 1 n); [|lia].
  destruct (Z.leb_spec n (days_in_month (year d) (month d))); [reflexivity|lia].
Qed.

(** Without an offset that moves forward: an offset of no month yields
    the start alone, whatever the count, and an offset that moves back
    fails for a count of zero or less. *)
Lemma date_range_without_forward_offset (start : Timestamp) (periods months : Z) :
  (months = 0 -> date_range start periods months = Ok [start])
  /\ (months < 0 -> periods <= 0 ->
      exists msg, date_range start periods months = Raise (ValueError msg)).
Proof.
  unfold date_range. split.
  - intros ->. reflexivity.
  - intros Hm Hp.
    destruct (Z.ltb_spec 0 months); [lia|].
    destruct (Z.eqb_spec months 0); [lia|].
    destruct (Z.ltb_spec 1 periods); [lia|].
    destruct (Z.eqb_spec periods 1); [lia|]. now eexists.
Qed.

(** [date_range] returns, but for a count of zero or less with an offset
    that moves back. *)
Lemma date_range_returns (start : Timestamp) (periods months : Z) :
  0 <= months \/ 1 <= periods ->
  exists dates, date_range start periods months = Ok dates.
Proof.
  intros H. unfold date_range.
  destruct (Z.ltb_spec 0 months); [eauto|].
  destruct (Z.eqb_spec months 0); [eauto|].
  destruct (Z.ltb_spec 1 periods); [eauto|].
  destruct (Z.eqb_spec periods 1); [eauto|lia].
Qed.

(** The first payment date, for a payment day from 1 to 28 other than
    the start day: the payment day of the next month when the start day
    is past it, the payment day of the start month when the start day is
    before it.  The schedule is generated in both cases, for a count of
    payments that is not negative and an offset of months that does not
    move back ([date_range] fails on no payment with an offset that moves
    back). *)
Theorem first_payment_date_rule
        (amount_ : float) (payments_ : Z) (residual_ start_fee_ end_fee_ : float)
        (frequency_ : Z) (rate_ : float) (start_date_ : Timestamp)
        (payment_date_ : Z) :
  1 <= payment_date_ <= 28 ->
  payment_date_ <> day start_date_ ->
  0 <= payments_ ->
  0 <= frequency_ ->
  exists schedule self',
    generate_schedule
      (blank amount_ payments_ residual_ start_fee_ end_fee_ frequency_ rate_
             start_date_ payment_date_) = Ok (schedule, self')
    /\ first_payment_date self' =
       Some (if payment_date_ <? day start_date_
             then mkdate (year (month_begin start_date_))
                         (month (month_begin start_date_)) payment_date_
             else mkdate (year start_date_) (month start_date_) payment_date_).
Proof.
  intros Hrange Hne _ Hfreq.
  assert (Hdates : 0 <= frequency_ \/ 1 <= payments_) by now left.
  unfold generate_schedule, assign_first_payment_date, blank.
  cbn [payment_date start_date].
  destruct (Z.ltb_spec payment_date_ (day start_date_)) as [Hlt|Hge].
  - rewrite replace_day_up_to_28 by assumption.
    cbn [bind set_first_payment_date first_payment_date payments frequency].
    destruct (date_range_returns
                (mkdate (year (month_begin start_date_))
                        (month (month_begin start_date_)) payment_date_)
                payments_ frequency_ Hdates) as [dates ->].
    cbn. eexists. eexists. split; reflexivity.
  - destruct (Z.ltb_spec (day start_date_) payment_date_) as [Hlt|Hge']; [|lia].
    rewrite replace_day_up_to_28 by assumption.
    cbn [bind set_first_payment_date first_payment_date payments frequency].
    destruct (date_range_returns
                (mkdate (year start_date_) (month start_date_) payment_date_)
                payments_ frequency_ Hdates) as [dates ->].
    cbn. eexists. eexists. split; reflexivity.
Qed.

End FirstPayment.

Lemma first_payment_date_rule_witness :
  exists schedule self',
    Hazel.generate_schedule Hazel.twelve_months = Ok (schedule, self')
    /\ Hazel.first_payment_date self' = Some (mkdate 2023 1 15).
Proof.
  apply (first_payment_date_rule 1000 12 0 100 200 1 0.05 (mkdate 2023 1 1) 15).
  - split; [apply Z.leb_le | apply Z.leb_le]; reflexivity.
  - intros H. discriminate H.
  - apply Z.leb_le. reflexivity.
  - apply Z.leb_le. reflexivity.
Defined.

(** * Further properties *)

(** ** The series in date order *)

Section DateOrder.

Import Eir Revaluation.

Local Open Scope Z_scope.

Variable tie_order : Series -> list nat.

(** [_ensure_series_index_datetime] returns the entries of its argument,
    each as often as it is listed, in date order; it gives back a series
    that is in date order as it is, so a second call changes nothing. *)
Theorem ensure_series_in_date_order (s : Series) :
  Permutation (_ensure_series_index_datetime tie_order s) s
  /\ in_date_order (_ensure_series_index_datetime tie_order s)
  /\ (in_date_order s -> _ensure_series_index_datetime tie_order s = s)
  /\ _ensure_series_index_datetime tie_order (_ensure_series_index_datetime tie_order s) =
     _ensure_series_index_datetime tie_order s.
Proof.
  unfold _ensure_series_index_datetime.
  split; [apply sort_index_perm|].
  split; [apply sort_index_in_date_order|].
  split; [apply sort_index_fixes_date_order|].
  apply sort_index_fixes_date_order, sort_index_in_date_order.
Qed.


End DateOrder.

(** ** The function [xirr] solves for *)

Section Objective.

Import Eir Revaluation.

Variable tie_order : Series -> list nat.
Variable libm_pow : float -> float -> float.

Lemma npv_on_sorted_series (s : Series) (first : Timestamp * float)
      (rest : Series) (rate : float) :
  sort_index tie_order s = first :: rest ->
  (rate <=? -0.9999999999)%float = false ->
  npv libm_pow (sort_index tie_order s) (fst first) rate =
  np_sum (map (discounted libm_pow rate (fst first))
              (filter (on_or_after (fst first)) (sort_index tie_order s))).
Proof.
  intros Hs Hrate.
  rewrite npv_as_sum by assumption.
  rewrite filter_all; [reflexivity|].
  intros e He. unfold on_or_after. apply Z.leb_le.
  pose proof (sort_index_in_date_order tie_order s) as Hord. rewrite Hs in *.
  apply (in_date_order_head first rest Hord e He).
Qed.

(** The function whose root [xirr] searches is the present value
    [compute_pv_of_cashflows] gives the series at its earliest date, at
    every rate above the guard -0.9999999999. *)
Theorem npv_is_present_value (s : Series) (first : Timestamp * float)
        (rest : Series) (rate : float) :
  sort_index tie_order s = first :: rest ->
  (rate <=? -0.9999999999)%float = false ->
  npv libm_pow (sort_index tie_order s) (fst first) rate =
  compute_pv_of_cashflows tie_order libm_pow s rate (fst first).
Proof.
  intros Hs Hrate.
  rewrite (npv_on_sorted_series s first rest rate Hs Hrate).
  now rewrite compute_pv_as_sum.
Qed.

End Objective.

Lemma npv_is_present_value_witness :
  Eir.npv libm_unavailable (Eir.sort_index Eir.as_listed Eir.proceeds_and_receipts_shuffled)
          (mkdate 2026 1 1) 0.05 =
  Eir.compute_pv_of_cashflows Eir.as_listed libm_unavailable Eir.proceeds_and_receipts_shuffled
                              0.05 (mkdate 2026 1 1).
Proof.
  apply (npv_is_present_value Eir.as_listed libm_unavailable Eir.proceeds_and_receipts_shuffled
           (mkdate 2026 1 1, (-950)%float) (List.tl Eir.proceeds_and_receipts));
    reflexivity.
Defined.

(** ** The rates [xirr] returns *)

Lemma abs_infinity_not_below (tol : float) :
  (PrimFloat.abs infinity <? tol)%float = false.
Proof.
  rewrite FloatAxioms.ltb_spec.
  replace (Prim2SF (PrimFloat.abs infinity)) with (S754_infinity false)
    by (vm_compute; reflexivity).
  destruct (Prim2SF tol) as [| [] | |]; reflexivity.
Qed.

Section Returned.

Import Eir Revaluation.

Variable tie_order : Series -> list nat.
Variable libm_pow : float -> float -> float.

Lemma npv_within_tolerance (series : Series) (base : Timestamp) (rate tol : float) :
  (PrimFloat.abs (npv libm_pow series base rate) <? tol)%float = true ->
  (rate <=? -0.9999999999)%float = false.
Proof.
  intros H.
  destruct (rate <=? -0.9999999999)%float eqn:Hguard; [|reflexivity].
  unfold npv in H. rewrite Hguard in H.
  now rewrite abs_infinity_not_below in H.
Qed.

(** Every rate [r] that [xirr] returns is of one of three kinds.  Let the
    expansion of the upper bound have stopped after [k] doublings.  If
    the values of [npv] at -0.9999 and at that bound differ in sign, [r]
    is a midpoint of the bisection of this bracket: either the first one,
    reached within the budget, at which the present value of the series
    at its earliest date, as [compute_pv_of_cashflows] gives it, is below
    [tol] in absolute value, a rate above the guard -0.9999999999; or the
    midpoint of the bracket left when the budget is spent, no midpoint
    having qualified.  If they do not differ in sign, [r] is the iterate
    at which Newton's method from the guess converged. *)
Theorem xirr_returned_rate (s : Series) (guess tol : float) (max_iter : Z)
        (first : Timestamp * float) (rest : Series) (r : float) :
  sort_index tie_order s = first :: rest ->
  has_sign_mix (values (sort_index tie_order s)) = true ->
  xirr tie_order libm_pow s guess tol max_iter = Ok r ->
  let f := npv libm_pow (sort_index tie_order s) (fst first) in
  let n := Z.to_nat max_iter in
  exists k,
    (k <= 50)%nat
    /\ (forall j, (j < k)%nat ->
                  (0 <? f lower0 * f (doubled j upper0))%float = true)
    /\ (forall j, (1 <= j < k)%nat -> (1e6 <? doubled j upper0)%float = false)
    /\ (k = 50%nat
        \/ (0 <? f lower0 * f (doubled k upper0))%float = false
        \/ ((1 <= k)%nat /\ (1e6 <? doubled k upper0)%float = true))
    /\ let bracket := (lower0, doubled k upper0, f lower0) in
       ((0 <? f lower0 * f (doubled k upper0))%float = false
        /\ exists j,
            (j < n)%nat
            /\ r = bracket_midpoint (narrowed f j bracket)
            /\ (r <=? -0.9999999999)%float = false
            /\ (PrimFloat.abs
                  (compute_pv_of_cashflows tie_order libm_pow s r (fst first))
                <? tol)%float = true
            /\ forall i, (i < j)%nat -> missed f tol bracket i)
       \/ ((0 <? f lower0 * f (doubled k upper0))%float = false
           /\ r = bracket_midpoint (narrowed f n bracket)
           /\ forall i, (i < n)%nat -> missed f tol bracket i)
       \/ ((0 <? f lower0 * f (doubled k upper0))%float = true
           /\ newton_converged f tol n guess r).
Proof.
  intros Hs Hmix Hr f n.
  rewrite (xirr_is_solve tie_order libm_pow s guess tol max_iter first rest Hs Hmix) in Hr.
  fold f in Hr.
  destruct (solve_strategy f guess tol max_iter)
    as [k (Hk & Hsame & Hbig & Hstop & Hbr & Hnb)].
  exists k. repeat (split; [assumption|]). cbv zeta.
  destruct (0 <? f lower0 * f (doubled k upper0))%float eqn:Hsign in |- .
  - right. right. split; [exact Hsign|].
    exact (proj1 (proj1 (Hnb Hsign) r) Hr).
  - destruct (Hbr Hsign) as [r' [Hr' Hbis]].
    rewrite Hr in Hr'. injection Hr' as <-.
    destruct Hbis as [[j (Hj & Hrj & Htol & Hmissed)]|[Hfinal Hmissed]].
    + left. split; [exact Hsign|]. exists j.
      pose proof (npv_within_tolerance _ _ _ _ Htol) as Hguard.
      split; [exact Hj|]. split; [exact Hrj|]. split; [exact Hguard|].
      split; [|exact Hmissed].
      rewrite compute_pv_as_sum.
      rewrite <- (npv_on_sorted_series tie_order libm_pow s first rest r Hs Hguard).
      exact Htol.
    + right. left. auto.
Qed.

(** *** Batches *)

Lemma batch_raised (loans : list Series) (e : exn) :
  fold_left (fun acc s =>
               bind acc (fun results =>
               bind (calculate_eir_for_loan tie_order libm_pow s) (fun e =>
               Ok (results ++ [e]))))
            loans (Raise e) = Raise e.
Proof.
  induction loans as [|s rest IH]; [reflexivity|]. exact IH.
Qed.

Lemma batch_from (loans : list Series) (done : list float) :
  match fold_left (fun acc s =>
                     bind acc (fun results =>
                     bind (calculate_eir_for_loan tie_order libm_pow s) (fun e =>
                     Ok (results ++ [e]))))
                  loans (Ok done) with
  | Ok rates => exists rs, rates = done ++ rs /\ Forall2 (rate_of tie_order libm_pow) loans rs
  | Raise e =>
      exists before s after,
        loans = before ++ s :: after
        /\ Forall (fun b => exists r, rate_of tie_order libm_pow b r) before
        /\ calculate_eir_for_loan tie_order libm_pow s = Raise e
  end.
Proof.
  revert done. induction loans as [|s rest IH]; intros done.
  - cbn. exists []. split; [now rewrite app_nil_r|constructor].
  - cbn [fold_left bind].
    destruct (calculate_eir_for_loan tie_order libm_pow s) as [e|x] eqn:Hs.
    + cbn [bind]. specialize (IH (done ++ [e])).
      destruct (fold_left _ rest (Ok (done ++ [e]))) as [rates|x].
      * destruct IH as [rs [-> Hrs]]. exists (e :: rs).
        split; [now rewrite <- app_assoc|]. now constructor.
      * destruct IH as [before [s' [after (-> & Hb & Hs')]]].
        exists (s :: before), s', after. split; [reflexivity|].
        split; [|assumption]. constructor; [now exists e|assumption].
    + cbn [bind]. rewrite batch_raised.
      exists [], s, rest. repeat split; [constructor|assumption].
Qed.

End Returned.

Section Batches.

Import Eir Revaluation.

Variable tie_order : Series -> list nat.
Variable libm_pow : float -> float -> float.

Lemma has_sign_mix_sort_index (s : Series) :
  has_sign_mix (values (sort_index tie_order s)) = has_sign_mix (values s).
Proof.
  apply eq_true_iff_eq. rewrite has_sign_mix_sorted.
  unfold has_sign_mix. rewrite andb_true_iff, !existsb_values. reflexivity.
Qed.

Lemma xirr_without_sign_mix (s : Series) (guess tol : float) (max_iter : Z) :
  has_sign_mix (values s) = false ->
  exists msg, xirr tie_order libm_pow s guess tol max_iter = Raise (ValueError msg).
Proof.
  intros Hmix. unfold xirr, _ensure_series_index_datetime.
  rewrite <- has_sign_mix_sort_index in Hmix.
  destruct (sort_index tie_order s) as [|first rest]; [now eexists|].
  rewrite Hmix. cbn. now eexists.
Qed.

(** [calculate_eir_for_loans] returns one rate per loan, in the order of
    the loans, each the rate [calculate_eir_for_loan] returns for its
    loan; when it raises, the exception is that of the first loan for
    which [calculate_eir_for_loan] raises. *)
Theorem batch_rates_in_order (loans : list Series) :
  match calculate_eir_for_loans tie_order libm_pow loans with
  | Ok rates => Forall2 (rate_of tie_order libm_pow) loans rates
  | Raise e =>
      exists before s after,
        loans = before ++ s :: after
        /\ Forall (fun b => exists r, rate_of tie_order libm_pow b r) before
        /\ calculate_eir_for_loan tie_order libm_pow s = Raise e
  end.
Proof.
  pose proof (batch_from tie_order libm_pow loans []) as H.
  unfold calculate_eir_for_loans.
  destruct (fold_left _ loans (Ok [])) as [rates|e]; [|exact H].
  destruct H as [rs [-> Hrs]]. exact Hrs.
Qed.

(** One loan without both signs among its amounts fails the batch: no
    rate is returned, not for the loans before it either. *)
Theorem batch_fails_on_invalid_loan (loans : list Series) (s : Series) :
  In s loans ->
  has_sign_mix (values s) = false ->
  exists e, calculate_eir_for_loans tie_order libm_pow loans = Raise e.
Proof.
  intros Hin Hmix.
  pose proof (batch_from tie_order libm_pow loans []) as H.
  unfold calculate_eir_for_loans.
  destruct (fold_left _ loans (Ok [])) as [rates|e]; [|now exists e].
  exfalso. destruct H as [rs [_ H]].
  assert (Hs : exists e, rate_of tie_order libm_pow s e).
  { clear Hmix. revert Hin. induction H as [|x e l l' Hx _ IH]; intros Hin.
    - contradiction.
    - destruct Hin as [<-|Hin]; [now exists e|now apply IH]. }
  destruct Hs as [e He].
  destruct (xirr_without_sign_mix s default_guess default_tol default_max_iter Hmix)
    as [msg Hraise].
  unfold rate_of, calculate_eir_for_loan in He. rewrite Hraise in He.
  discriminate He.
Qed.

End Batches.

Lemma batch_fails_on_invalid_loan_witness :
  exists e,
    Revaluation.calculate_eir_for_loans Eir.as_listed libm_unavailable
      [Eir.proceeds_and_receipts; Eir.receipts_only] = Raise e.
Proof.
  apply (batch_fails_on_invalid_loan Eir.as_listed libm_unavailable _ Eir.receipts_only).
  - right. left. reflexivity.
  - reflexivity.
Defined.

(** ** Carrying-value adjustments *)

Section Adjustments.

Import Eir Revaluation.

Local Open Scope Z_scope.

Variable tie_order : Series -> list nat.
Variable libm_pow : float -> float -> float.

(** Restricting a sorted series to the entries on or after the base
    date, as the loop does before it discounts, changes no present
    value. *)
Lemma compute_pv_of_remaining (s : Series) (rate : float) (base : Timestamp) :
  compute_pv_of_cashflows tie_order libm_pow
    (filter (on_or_after base) (_ensure_series_index_datetime tie_order s)) rate base =
  compute_pv_of_cashflows tie_order libm_pow s rate base.
Proof.
  unfold _ensure_series_index_datetime.
  rewrite !compute_pv_as_sum.
  rewrite (sort_index_fixes_date_order tie_order
             (filter (on_or_after base) (sort_index tie_order s)))
    by apply filter_in_date_order, sort_index_in_date_order.
  now rewrite filter_on_or_after_idem.
Qed.

Lemma revalue_spec (original : Series) (eir : float) (rd : Timestamp) (rf : Series) :
  revalue tie_order libm_pow (_ensure_series_index_datetime tie_order original) eir (rd, rf) =
  let pv_orig := compute_pv_of_cashflows tie_order libm_pow original eir rd in
  let pv_rf := compute_pv_of_cashflows tie_order libm_pow rf eir rd in
  mkadjustment rd pv_orig pv_rf (pv_rf - pv_orig)%float.
Proof.
  unfold revalue. cbv zeta. now rewrite !compute_pv_of_remaining.
Qed.

Lemma insert_item_perm (item : Timestamp * Series) (items : Reforecasts) :
  Permutation (insert_item item items) (item :: items).
Proof.
  induction items as [|x rest IH]; simpl.
  - apply Permutation_refl.
  - destruct (toordinal (fst item) <=? toordinal (fst x)).
    + apply Permutation_refl.
    + eapply perm_trans; [apply perm_skip, IH | apply perm_swap].
Qed.

Lemma sorted_items_perm (reforecasts : Reforecasts) :
  Permutation (sorted_items reforecasts) reforecasts.
Proof.
  induction reforecasts as [|x rest IH]; simpl.
  - constructor.
  - eapply perm_trans; [apply insert_item_perm | now apply perm_skip].
Qed.

Lemma insert_item_ascending (item : Timestamp * Series) (items : Reforecasts) :
  Sorted (fun a b => toordinal (fst a) <= toordinal (fst b)) items ->
  Sorted (fun a b => toordinal (fst a) <= toordinal (fst b)) (insert_item item items).
Proof.
  induction items as [|x rest IH]; intros Hs; simpl.
  - repeat constructor.
  - destruct (Z.leb_spec (toordinal (fst item)) (toordinal (fst x))) as [Hle|Hlt].
    + constructor; [assumption|]. now constructor.
    + inversion Hs as [|? ? Hrest Hhd]; subst.
      constructor; [now apply IH|].
      destruct rest as [|y rest']; simpl.
      * constructor. lia.
      * destruct (Z.leb_spec (toordinal (fst item)) (toordinal (fst y))).
        -- constructor. lia.
        -- inversion Hhd; subst. now constructor.
Qed.

Lemma sorted_items_ascending (reforecasts : Reforecasts) :
  Sorted (fun a b => toordinal (fst a) <= toordinal (fst b))
         (sorted_items reforecasts).
Proof.
  induction reforecasts as [|x rest IH]; simpl.
  - constructor.
  - now apply insert_item_ascending.
Qed.

Lemma insert_item_comm (x y : Timestamp * Series) (items : Reforecasts) :
  toordinal (fst x) <> toordinal (fst y) ->
  insert_item x (insert_item y items) = insert_item y (insert_item x items).
Proof.
  intros Hxy.
  induction items as [|z rest IH]; simpl.
  - destruct (Z.leb_spec (toordinal (fst x)) (toordinal (fst y)));
      destruct (Z.leb_spec (toordinal (fst y)) (toordinal (fst x)));
      try reflexivity; lia.
  - destruct (Z.leb_spec (toordinal (fst y)) (toordinal (fst z))) as [Hyz|Hyz];
      destruct (Z.leb_spec (toordinal (fst x)) (toordinal (fst z))) as [Hxz|Hxz];
      simpl;
      repeat match goal with
             | |- context [(?a <=? ?b)] => destruct (Z.leb_spec a b)
             end;
      try reflexivity; try lia.
    now rewrite IH.
Qed.

Lemma sorted_items_unique (r1 r2 : Reforecasts) :
  Permutation r1 r2 ->
  NoDup (map (fun item => toordinal (fst item)) r1) ->
  sorted_items r1 = sorted_items r2.
Proof.
  induction 1 as [|x l l' Hp IH|x y l|l l' l'' Hp1 IH1 Hp2 IH2]; intros Hnd.
  - reflexivity.
  - simpl. rewrite IH; [reflexivity|]. now inversion Hnd.
  - simpl. apply insert_item_comm.
    simpl in Hnd. inversion Hnd as [|? ? Hnotin _]; subst.
    intros Heq. apply Hnotin. now left.
  - rewrite IH1 by assumption. apply IH2.
    eapply Permutation_NoDup; [|exact Hnd]. now apply Permutation_map.
Qed.

Lemma sorted_items_nil_iff (reforecasts : Reforecasts) :
  sorted_items reforecasts = [] <-> reforecasts = [].
Proof.
  split; intros H.
  - apply Permutation_nil. rewrite <- H. apply sorted_items_perm.
  - now subst.
Qed.

Lemma rows_of_items (original : Series) (eir : float) (items : Reforecasts) :
  map (revalue tie_order libm_pow (_ensure_series_index_datetime tie_order original) eir) items =
  map (fun item =>
         let pv_orig := compute_pv_of_cashflows tie_order libm_pow original eir (fst item) in
         let pv_rf := compute_pv_of_cashflows tie_order libm_pow (snd item) eir (fst item) in
         mkadjustment (fst item) pv_orig pv_rf (pv_rf - pv_orig)%float)
      items.
Proof.
  apply map_ext. intros [rd rf]. apply revalue_spec.
Qed.

(** With a rate passed in, [compute_carrying_value_adjustments] asks
    nothing of the original series.  Without reforecasts it raises a
    [KeyError] (the frame has no column to index by); otherwise it returns
    one row per reforecast, in ascending order of the reforecast dates,
    and in the row of the date [d] with series [rf]: [pv_original] is the
    present value at [d] of the whole original series,  [pv_reforecast]
    that of [rf], both as [compute_pv_of_cashflows] gives them at the
    rate, and [adjustment] is [pv_reforecast - pv_original]. *)
Theorem adjustments_with_rate (original : Series) (reforecasts : Reforecasts)
        (eir : float) :
  (reforecasts = [] ->
   exists msg,
     compute_carrying_value_adjustments tie_order libm_pow original reforecasts (Some eir)
     = Raise (KeyError msg))
  /\ (reforecasts <> [] ->
      exists items,
        Permutation items reforecasts
        /\ Sorted (fun a b => toordinal (fst a) <= toordinal (fst b)) items
        /\ compute_carrying_value_adjustments tie_order libm_pow original reforecasts (Some eir)
           = Ok (map (fun item =>
                        let pv_orig :=
                          compute_pv_of_cashflows tie_order libm_pow original eir (fst item) in
                        let pv_rf :=
                          compute_pv_of_cashflows tie_order libm_pow (snd item) eir (fst item) in
                        mkadjustment (fst item) pv_orig pv_rf (pv_rf - pv_orig)%float)
                     items)).
Proof.
  split.
  - intros ->. now eexists.
  - intros Hne. exists (sorted_items reforecasts).
    split; [apply sorted_items_perm|].
    split; [apply sorted_items_ascending|].
    unfold compute_carrying_value_adjustments. cbn [bind].
    rewrite rows_of_items.
    destruct (sorted_items reforecasts) as [|item items] eqn:Hitems.
    + exfalso. apply Hne. now apply (proj1 (sorted_items_nil_iff reforecasts)).
    + reflexivity.
Qed.

(** Without a rate, the rate is the one [calculate_eir_for_loan] returns
    for the original series: the result is that of the call with this
    rate passed in, and when the rate cannot be found, its exception is
    the result, whatever the reforecasts.  An original series without
    both signs so raises a [ValueError]. *)
Theorem adjustments_without_rate (original : Series) (reforecasts : Reforecasts) :
  compute_carrying_value_adjustments tie_order libm_pow original reforecasts None =
    match calculate_eir_for_loan tie_order libm_pow original with
    | Ok e => compute_carrying_value_adjustments tie_order libm_pow original reforecasts (Some e)
    | Raise x => Raise x
    end
  /\ (has_sign_mix (values original) = false ->
      exists msg,
        compute_carrying_value_adjustments tie_order libm_pow original reforecasts None
        = Raise (ValueError msg)).
Proof.
  assert (Hrate :
    calculate_eir_for_loan tie_order libm_pow (_ensure_series_index_datetime tie_order original) =
    calculate_eir_for_loan tie_order libm_pow original).
  { unfold calculate_eir_for_loan, _ensure_series_index_datetime.
    apply xirr_through_sort.
    apply sort_index_fixes_date_order, sort_index_in_date_order. }
  assert (Hfirst :
    compute_carrying_value_adjustments tie_order libm_pow original reforecasts None =
    match calculate_eir_for_loan tie_order libm_pow original with
    | Ok e => compute_carrying_value_adjustments tie_order libm_pow original reforecasts (Some e)
    | Raise x => Raise x
    end).
  { unfold compute_carrying_value_adjustments. rewrite Hrate.
    now destruct (calculate_eir_for_loan tie_order libm_pow original). }
  split; [exact Hfirst|].
  intros Hmix. rewrite Hfirst.
  destruct (xirr_without_sign_mix tie_order libm_pow original
              default_guess default_tol default_max_iter Hmix) as [msg Hraise].
  unfold calculate_eir_for_loan. rewrite Hraise. now exists msg.
Qed.

(** The order in which the reforecasts were put into the dict does not
    matter, their dates being distinct as the keys of a dict are. *)
Theorem adjustments_insertion_order (original : Series)
        (r1 r2 : Reforecasts) (eir : option float) :
  Permutation r1 r2 ->
  NoDup (map (fun item => toordinal (fst item)) r1) ->
  compute_carrying_value_adjustments tie_order libm_pow original r1 eir =
  compute_carrying_value_adjustments tie_order libm_pow original r2 eir.
Proof.
  intros Hp Hnd. unfold compute_carrying_value_adjustments.
  now rewrite (sorted_items_unique r1 r2 Hp Hnd).
Qed.

End Adjustments.

Lemma adjustments_insertion_order_witness :
  Revaluation.compute_carrying_value_adjustments Eir.as_listed libm_unavailable
    Eir.proceeds_and_receipts
    [ (mkdate 2028 1 1, Eir.receipts_only); (mkdate 2027 1 1, Eir.receipts_only) ]
    (Some 0.05%float) =
  Revaluation.compute_carrying_value_adjustments Eir.as_listed libm_unavailable
    Eir.proceeds_and_receipts
    [ (mkdate 2027 1 1, Eir.receipts_only); (mkdate 2028 1 1, Eir.receipts_only) ]
    (Some 0.05%float).
Proof.
  apply (adjustments_insertion_order Eir.as_listed libm_unavailable).
  - apply perm_swap.
  - vm_compute. repeat constructor; simpl; intuition discriminate.
Defined.

(** ** What [fsolve] returns *)

Section FsolveOutcome.

Import Hazel Steps.

Context {St : Type}.

Variable f : float -> float.

Lemma fsolve_iter_pure (xtol : float) (n : nat) (x : float) (st : St) :
  fsolve_iter (pure_callable f) xtol (S n) x st =
  if (fsolve_slope f x =? 0)%float then Raise (ValueError "fail")
  else if (PrimFloat.abs (fsolve_step f x - x) <? xtol)%float
       then Ok (Some (fsolve_step f x), st)
       else fsolve_iter (pure_callable f) xtol n (fsolve_step f x) st.
Proof. reflexivity. Qed.

(** For a function that has no effect, [fsolve] ends in one of three
    ways: it returns the iterate at which the step first got shorter than
    [xtol]; it raises [ValueError("fail")] at the first iterate where the
    finite-difference slope is zero; or, the budget spent with neither,
    it returns [None].  It raises nothing else, and a number it returns
    is never further than [xtol] from the iterate before it. *)
Theorem fsolve_outcome (x0 xtol : float) (max_iter : Z) (st : St) :
  let n := Z.to_nat max_iter in
  match fsolve (pure_callable f) x0 xtol max_iter st with
  | Ok (Some r, st') => st' = st /\ fsolve_converged f xtol n x0 r
  | Ok (None, st') =>
      st' = st
      /\ forall i, (i < n)%nat ->
           (fsolve_slope f (fsolve_iterate f i x0) =? 0)%float = false
           /\ (PrimFloat.abs (fsolve_iterate f (S i) x0
                              - fsolve_iterate f i x0) <? xtol)%float = false
  | Raise e => e = ValueError "fail" /\ fsolve_flat f xtol n x0
  end.
Proof.
  intros n. unfold fsolve. fold n. clearbody n. clear max_iter.
  revert x0. induction n as [|n IH]; intros x0.
  - cbn. split; [reflexivity|]. intros i Hi. lia.
  - rewrite fsolve_iter_pure.
    destruct (fsolve_slope f x0 =? 0)%float eqn:Hslope.
    + split; [reflexivity|]. exists 0%nat. split; [lia|].
      split; [exact Hslope|]. intros i Hi. lia.
    + destruct (PrimFloat.abs (fsolve_step f x0 - x0) <? xtol)%float eqn:Hnear.
      * split; [reflexivity|]. exists 0%nat. split; [lia|].
        split; [reflexivity|]. split; [exact Hnear|].
        split; intros i Hi; [|lia]. assert (i = 0)%nat by lia. now subst.
      * specialize (IH (fsolve_step f x0)).
        destruct (fsolve_iter (pure_callable f) xtol n (fsolve_step f x0) st)
          as [[[r|] st']|e].
        -- destruct IH as [-> [k (Hk & Hr & Ht & Hs & Hm)]].
           split; [reflexivity|]. exists (S k). split; [lia|].
           split; [exact Hr|]. split; [exact Ht|]. split.
           ++ intros [|i] Hi; [exact Hslope|]. apply Hs. lia.
           ++ intros [|i] Hi; [exact Hnear|]. apply (Hm i). lia.
        -- destruct IH as [-> Hall]. split; [reflexivity|].
           intros [|i] Hi; [now split|]. apply (Hall i). lia.
        -- destruct IH as [-> [k (Hk & Hz & Hbefore)]].
           split; [reflexivity|]. exists (S k). split; [lia|].
           split; [exact Hz|].
           intros [|i] Hi; [now split|]. apply (Hbefore i). lia.
Qed.

End FsolveOutcome.

(** ** The payment search over the walk *)

Section SearchOverWalk.

Import Hazel Steps.

Variable libm_pow : float -> float -> float.

Lemma accrue_agree (payment : float) (s1 s2 : loanSchedule) (k : nat)
      (total : float) (fees : float -> float) :
  same_terms s1 s2 -> books s1 = books s2 ->
  agree (accrue libm_pow payment s1 k total fees)
        (accrue libm_pow payment s2 k total fees).
Proof.
  intros (Ha & Hr & Hsf & Hef & Hrt & Hps) Hb.
  unfold accrue. rewrite <- Hb, <- Hps, <- Hrt.
  destruct (getitem (closing_balance (books s1)) (k - 1)); cbn [bind];
    [|reflexivity].
  destruct (getitem (opening_balance (books s1) ++ [a]) k); cbn [bind];
    [|reflexivity].
  destruct (at_days_in_period (payment_schedule s1) (k - 1)); cbn [bind];
    [|reflexivity].
  destruct (getitem (fees_outstanding (books s1)) (k - 1)); cbn [bind];
    [|reflexivity].
  cbn. unfold same_terms. cbn. auto 10.
Qed.

Lemma period_step_agree (payment : float) (s1 s2 : loanSchedule) (k : nat) :
  same_terms s1 s2 -> books s1 = books s2 ->
  agree (period_step libm_pow payment s1 k) (period_step libm_pow payment s2 k).
Proof.
  intros Ht Hb. pose proof Ht as (Ha & Hr & Hsf & Hef & Hrt & Hps).
  unfold period_step. rewrite <- Hsf, <- Hef, <- Hps.
  destruct (k =? 0)%nat; [cbn; auto|].
  destruct (k =? 1)%nat; [now apply accrue_agree|].
  destruct (k =? List.length (payment_schedule s1) - 1)%nat;
    now apply accrue_agree.
Qed.

Lemma walk_agree (payment : float) (index : list nat) (r1 r2 : result loanSchedule) :
  agree r1 r2 ->
  agree (fold_left (fun acc period =>
                      bind acc (fun self => period_step libm_pow payment self period))
                   index r1)
        (fold_left (fun acc period =>
                      bind acc (fun self => period_step libm_pow payment self period))
                   index r2).
Proof.
  revert r1 r2. induction index as [|k rest IH]; intros r1 r2 H; [exact H|].
  cbn [fold_left]. apply IH.
  destruct r1 as [t1|e1], r2 as [t2|e2]; cbn in H |- *; try contradiction;
    [|exact H].
  destruct H as [Ht Hb]. now apply period_step_agree.
Qed.

(** [calculate_payment] reads the terms and the schedule of its object,
    not its books: on two objects that share the former it returns the
    same value and leaves the same books. *)
Lemma calculate_payment_agree (payment : float) (s1 s2 : loanSchedule)
      (value : float) (b : ledger) :
  same_terms s1 s2 ->
  calculate_payment libm_pow payment s1 = Ok (value, set_books s1 b) ->
  calculate_payment libm_pow payment s2 = Ok (value, set_books s2 b).
Proof.
  intros Ht H1. pose proof Ht as (Ha & Hr & Hsf & Hef & Hrt & Hps).
  destruct (calculate_payment_ok libm_pow payment s2) as [v2 [b2 [H2 _]]].
  rewrite H2.
  unfold calculate_payment in H1, H2.
  rewrite !payment_schedule_set_books in H1, H2.
  assert (Hw : agree
    (walk libm_pow payment (set_books s1 (initial_books s1))
          (seq 0 (List.length (payment_schedule s1))))
    (walk libm_pow payment (set_books s2 (initial_books s2))
          (seq 0 (List.length (payment_schedule s2))))).
  { rewrite <- Hps. apply walk_agree. cbn. unfold same_terms, initial_books.
    cbn. rewrite Ha, Hsf, Hef. auto 10. }
  destruct (walk libm_pow payment (set_books s1 (initial_books s1)) _) as [t1|e1];
    [|discriminate H1].
  destruct (walk libm_pow payment (set_books s2 (initial_books s2)) _) as [t2|e2];
    [|discriminate H2].
  cbn [bind] in H1, H2. destruct Hw as [(_ & Hr' & _ & _ & _ & Hps') Hb].
  rewrite <- Hb, <- Hps', <- Hr' in H2.
  destruct (getitem (closing_balance (books t1))
                    (List.length (payment_schedule t1) - 1)) as [last|];
    [|discriminate H1].
  cbn [bind] in H1, H2.
  injection H1 as <- Ht1. injection H2 as <- Ht2.
  f_equal. f_equal.
  apply (f_equal books) in Ht1. apply (f_equal books) in Ht2.
  cbn in Ht1, Ht2. congruence.
Qed.

Lemma same_terms_set_books (s : loanSchedule) (b : ledger) :
  same_terms (set_books s b) s.
Proof. unfold same_terms. cbn. auto 10. Qed.

Lemma same_terms_with_books (s : loanSchedule) (b : ledger) :
  same_terms s (set_books s b).
Proof. unfold same_terms. cbn. auto 10. Qed.

Lemma fsolve_iter_unfold {St : Type} (func : @callable St) (xtol : float)
      (n : nat) (x : float) (st : St) :
  fsolve_iter func xtol (S n) x st =
  bind (func x st) (fun r1 =>
  bind (func (x + h)%float (snd r1)) (fun r2 =>
  bind (func x (snd r2)) (fun r3 =>
    let f_prime := ((fst r2 - fst r3) / h)%float in
    if (f_prime =? 0)%float then Raise (ValueError "fail")
    else
      let x_new := (x - fst r1 / f_prime)%float in
      if (PrimFloat.abs (x_new - x) <? xtol)%float then Ok (Some x_new, snd r3)
      else fsolve_iter func xtol n x_new (snd r3)))).
Proof.
  cbn [fsolve_iter].
  destruct (func x st) as [[v1 s1]|]; [|reflexivity]. cbn [bind fst snd].
  destruct (func (x + h)%float s1) as [[v2 s2]|]; [|reflexivity]. cbn [bind fst snd].
  destruct (func x s2) as [[v3 s3]|]; reflexivity.
Qed.

Lemma payment_gap_agree (s1 s2 : loanSchedule) (x : float) :
  same_terms s1 s2 -> payment_gap libm_pow s1 x = payment_gap libm_pow s2 x.
Proof.
  intros Ht. unfold payment_gap.
  destruct (calculate_payment_ok libm_pow x s1) as [v [b [H1 _]]].
  rewrite H1, (calculate_payment_agree x s1 s2 v b Ht H1). reflexivity.
Qed.

Lemma fsolve_step_ext (g1 g2 : float -> float) (x : float) :
  (forall y, g1 y = g2 y) ->
  fsolve_slope g1 x = fsolve_slope g2 x /\ fsolve_step g1 x = fsolve_step g2 x.
Proof.
  intros H. unfold fsolve_step, fsolve_slope. now rewrite !H.
Qed.

Lemma fsolve_iterate_ext (g1 g2 : float -> float) (k : nat) (x : float) :
  (forall y, g1 y = g2 y) -> fsolve_iterate g1 k x = fsolve_iterate g2 k x.
Proof.
  intros H. revert x. induction k as [|k IH]; intros x; [reflexivity|].
  cbn [fsolve_iterate]. rewrite IH.
  now rewrite (proj2 (fsolve_step_ext g1 g2 x H)).
Qed.

(** The search over [calculate_payment], for the function [g] that
    [calculate_payment] computes on the object.  It raises nothing but
    the [ValueError] of a zero slope.  When it returns, it has entered
    its loop [k + 1] times, the last time at the iterate [x] of number
    [k]: the books it leaves in the object are those of walking [x], and
    the payment it returns, if any, is the next iterate. *)
Lemma fsolve_over_walk (g : float -> float) (xtol : float) (n : nat) (x0 : float)
      (s : loanSchedule) :
  (forall x, payment_gap libm_pow s x = g x) ->
  match fsolve_iter (calculate_payment libm_pow) xtol (S n) x0 s with
  | Ok (r, s') =>
      exists k b,
        (k <= n)%nat
        /\ calculate_payment libm_pow (fsolve_iterate g k x0) s =
           Ok (g (fsolve_iterate g k x0), set_books s b)
        /\ s' = set_books s b
        /\ books_ok libm_pow (fsolve_iterate g k x0) s
                    (Nat.max 1 (List.length (payment_schedule s))) b
        /\ (forall i, (i < k)%nat ->
              (PrimFloat.abs (fsolve_iterate g (S i) x0 - fsolve_iterate g i x0)
               <? xtol)%float = false)
        /\ match r with
           | Some p =>
               p = fsolve_iterate g (S k) x0
               /\ (PrimFloat.abs (p - fsolve_iterate g k x0) <? xtol)%float = true
           | None =>
               k = n
               /\ (PrimFloat.abs (fsolve_iterate g (S k) x0 - fsolve_iterate g k x0)
                   <? xtol)%float = false
           end
  | Raise e => e = ValueError "fail"
  end.
Proof.
  revert x0 s. induction n as [|n IH]; intros x0 s Hg.
  all: destruct (calculate_payment_ok libm_pow x0 s) as [v1 [b1 [H1 Hb1]]].
  all: destruct (calculate_payment_ok libm_pow (x0 + h)%float s) as [v2 [b2 [H2 _]]].
  all: assert (Hv1 : v1 = g x0)
         by (rewrite <- Hg; unfold payment_gap; now rewrite H1).
  all: assert (Hv2 : v2 = g (x0 + h)%float)
         by (rewrite <- Hg; unfold payment_gap; now rewrite H2).
  all: pose proof (calculate_payment_agree _ _ _ _ _
                     (same_terms_with_books s b1) H2) as H2'.
  all: pose proof (calculate_payment_agree _ _ _ _ _
                     (same_terms_with_books s b2) H1) as H1'.
  all: rewrite !set_books_set_books in H1', H2'.
  all: rewrite fsolve_iter_unfold, H1; cbn [bind fst snd]; rewrite H2';
       cbn [bind fst snd]; rewrite H1'; cbn [bind fst snd]; cbv zeta.
  all: assert (Hstep : (x0 - v1 / ((v2 - v1) / h))%float = fsolve_step g x0)
         by (unfold fsolve_step, fsolve_slope; now rewrite Hv1, Hv2).
  all: rewrite Hstep.
  all: destruct ((v2 - v1) / h =? 0)%float; [reflexivity|].
  all: destruct (PrimFloat.abs (fsolve_step g x0 - x0) <? xtol)%float eqn:Hnear.
  - exists 0%nat, b1. cbn [fsolve_iterate]. split; [lia|].
    split; [now rewrite <- Hv1|]. split; [reflexivity|]. split; [exact Hb1|].
    split; [intros i Hi; lia|]. now split.
  - exists 0%nat, b1. cbn [fsolve_iterate fsolve_iter]. split; [lia|].
    split; [now rewrite <- Hv1|]. split; [reflexivity|]. split; [exact Hb1|].
    split; [intros i Hi; lia|]. now split.
  - exists 0%nat, b1. cbn [fsolve_iterate]. split; [lia|].
    split; [now rewrite <- Hv1|]. split; [reflexivity|]. split; [exact Hb1|].
    split; [intros i Hi; lia|]. now split.
  - assert (Hg' : forall x, payment_gap libm_pow (set_books s b1) x = g x).
    { intros x. rewrite <- Hg. apply payment_gap_agree, same_terms_set_books. }
    specialize (IH (fsolve_step g x0) (set_books s b1) Hg').
    destruct (fsolve_iter (calculate_payment libm_pow) xtol (S n) _ (set_books s b1))
      as [[r s']|e]; [|exact IH].
    destruct IH as [k [b (Hk & Hc & Hs' & Hb & Hm & Hr)]].
    exists (S k), b. cbn [fsolve_iterate].
    rewrite set_books_set_books in Hc, Hs'.
    pose proof (calculate_payment_agree _ _ _ _ _
                  (same_terms_set_books s b1) Hc) as Hc'.
    split; [lia|]. split; [exact Hc'|]. split; [exact Hs'|]. split; [exact Hb|].
    split.
    + intros [|i] Hi; cbn [fsolve_iterate]; [exact Hnear|]. apply Hm. lia.
    + destruct r as [p|]; [exact Hr|].
      destruct Hr as [-> Hr]. now split.
Qed.

End SearchOverWalk.

(** ** The objects the constructor builds *)

Section Constructed.

Import Hazel Steps.

Variable libm_pow : float -> float -> float.
Variable np_round2 : float -> float.

Lemma replace_day_raises (d : Timestamp) (n : Z) (e : exn) :
  replace_day d n = Raise e ->
  e = ValueError "day is out of range for month"
  /\ (n < 1 \/ days_in_month (year d) (month d) < n)%Z.
Proof.
  unfold replace_day.
  destruct (Z.leb_spec 1 n) as [H1|H1];
    destruct (Z.leb_spec n (days_in_month (year d) (month d))) as [H2|H2];
    cbn; intros H; try discriminate H; injection H as <-; split; auto; lia.
Qed.

Lemma replace_day_ok (d d' : Timestamp) (n : Z) :
  replace_day d n = Ok d' ->
  d' = mkdate (year d) (month d) n
  /\ (1 <= n <= days_in_month (year d) (month d))%Z.
Proof.
  unfold replace_day.
  destruct (Z.leb_spec 1 n) as [H1|H1];
    destruct (Z.leb_spec n (days_in_month (year d) (month d))) as [H2|H2];
    cbn; intros H; try discriminate H; injection H as <-; split; auto; lia.
Qed.

(** What [generate_schedule] does to an object that has no first payment
    date yet and an offset of a month or more: it fails on equal days and
    on a payment day that is no day of the month, and otherwise assigns a
    first payment date on the payment day and returns the schedule from
    it. *)
Lemma generate_schedule_inv (self : loanSchedule) :
  first_payment_date self = None ->
  (1 <= frequency self)%Z ->
  match generate_schedule self with
  | Ok (schedule, self') =>
      exists first,
        self' = set_first_payment_date self first
        /\ day first = payment_date self
        /\ payment_date self <> day (start_date self)
        /\ (1 <= payment_date self)%Z
        /\ schedule =
           schedule_of_dates
             (start_date self ::
              date_range_from first (Z.to_nat (payments self)) (frequency self))
        /\ ((first = mkdate (year (start_date self)) (month (start_date self))
                            (payment_date self)
             /\ (day (start_date self) < payment_date self)%Z)
            \/ (first = mkdate (year (month_begin (start_date self)))
                               (month (month_begin (start_date self)))
                               (payment_date self)
                /\ (payment_date self < day (start_date self)
                    \/ 28 < payment_date self)%Z))
  | Raise e =>
      (e = AttributeError "first_payment_date"
       /\ payment_date self = day (start_date self))
      \/ (e = ValueError "day is out of range for month"
          /\ payment_date self <> day (start_date self)
          /\ (payment_date self < 1 \/ 28 < payment_date self)%Z)
  end.
Proof.
  intros Hnone Hfreq.
  assert (Hrange : forall first,
             date_range first (payments self) (frequency self) =
             Ok (date_range_from first (Z.to_nat (payments self)) (frequency self)))
    by (intros first; now apply date_range_forward).
  unfold generate_schedule, assign_first_payment_date.
  destruct (Z.ltb_spec (payment_date self) (day (start_date self))) as [Hlt|Hge].
  - destruct (replace_day (month_begin (start_date self)) (payment_date self))
      as [d|e] eqn:Hd; cbn -[date_range].
    + rewrite Hrange. cbn [bind].
      apply replace_day_ok in Hd. destruct Hd as [-> Hr].
      eexists. split; [reflexivity|]. cbn.
      split; [reflexivity|]. split; [lia|]. split; [lia|].
      split; [reflexivity|]. right. split; [reflexivity|lia].
    + apply replace_day_raises in Hd. destruct Hd as [-> Hr]. right.
      split; [reflexivity|]. split; [lia|].
      pose proof (days_in_month_at_least_28
                    (year (month_begin (start_date self)))
                    (month (month_begin (start_date self)))). lia.
  - destruct (Z.ltb_spec (day (start_date self)) (payment_date self)) as [Hlt|Hge'].
    + destruct (replace_day (start_date self) (payment_date self)) as [d|e] eqn:Hd.
      * cbn -[date_range]. rewrite Hrange. cbn [bind].
        apply replace_day_ok in Hd. destruct Hd as [-> Hr].
        eexists. split; [reflexivity|]. cbn.
        split; [reflexivity|]. split; [lia|]. split; [lia|].
        split; [reflexivity|]. left. split; [reflexivity|lia].
      * apply replace_day_raises in Hd. destruct Hd as [-> Hr].
        destruct (replace_day (month_begin (start_date self)) (payment_date self))
          as [d|e] eqn:Hd'; cbn -[date_range].
        -- rewrite Hrange. cbn [bind].
           apply replace_day_ok in Hd'. destruct Hd' as [-> Hr'].
           eexists. split; [reflexivity|]. cbn.
           split; [reflexivity|]. split; [lia|]. split; [lia|].
           split; [reflexivity|]. right. split; [reflexivity|].
           pose proof (days_in_month_at_least_28
                         (year (start_date self)) (month (start_date self))). lia.
        -- apply replace_day_raises in Hd'. destruct Hd' as [-> Hr']. right.
           split; [reflexivity|]. split; [lia|].
           pose proof (days_in_month_at_least_28
                         (year (start_date self)) (month (start_date self))). lia.
    + cbn. rewrite Hnone. left. split; [reflexivity|lia].
Qed.

Lemma schedule_of_dates_length (dates : list Timestamp) :
  List.length (schedule_of_dates dates) = List.length dates.
Proof.
  rewrite <- (length_map date). now rewrite schedule_of_dates_dates.
Qed.

Lemma make_df_ok (payment : float) (s : loanSchedule) (r : option float) (b : ledger) :
  books_ok libm_pow payment s (List.length (payment_schedule s)) b ->
  exists frame, make_df np_round2 (set_monthly_payment (set_books s b) r) = Ok frame.
Proof.
  intros (Hi & Hp & Hf & Ht & Ho & Hc & _).
  unfold make_df. cbn [books set_books set_monthly_payment payment_schedule forallb].
  rewrite Ht, Hi, Hp, Ho, Hc, Hf, Nat.eqb_refl. cbn. now eexists.
Qed.

Lemma dict_getitem_raises (name : string) (e : exn) :
  dict_getitem frequency_dict name = Raise e ->
  e = KeyError name /\ forall v, ~ In (name, v) frequency_dict.
Proof.
  unfold dict_getitem.
  destruct (find (fun kv => String.eqb (fst kv) name) frequency_dict) as [kv|] eqn:Hf;
    [intros H; discriminate H|].
  intros H. injection H as <-. split; [reflexivity|].
  intros v Hin. apply (find_none _ _ Hf) in Hin.
  cbn in Hin. now rewrite String.eqb_refl in Hin.
Qed.

Lemma dict_getitem_ok (name : string) (v : Z) :
  dict_getitem frequency_dict name = Ok v -> In v [1; 4; 5; 12]%Z.
Proof.
  unfold dict_getitem.
  destruct (find (fun kv => String.eqb (fst kv) name) frequency_dict) as [kv|] eqn:Hf;
    [|intros H; discriminate H].
  intros H. injection H as <-.
  apply find_some in Hf. destruct Hf as [Hin _].
  cbn in Hin. cbn.
  repeat (destruct Hin as [<-|Hin]; [cbn; auto|]). contradiction.
Qed.

End Constructed.

Section Init.

Import Hazel Steps.

Variable libm_pow : float -> float -> float.
Variable np_round2 : float -> float.

Lemma init_cases (amount_ rate_ : float) (start_date_ : Timestamp) (payments_ : Z)
      (residual_ : float) (payment_date_ : option Z) (frequency_ : string)
      (start_fee_ end_fee_ : float) :
  let day_of_month :=
    match payment_date_ with
    | None => day start_date_
    | Some p => Z.min 28 p
    end in
  match init libm_pow np_round2 amount_ rate_ start_date_ payments_ residual_
             payment_date_ frequency_ start_fee_ end_fee_ with
  | Ok self =>
      exists freq first b k r frame,
        dict_getitem frequency_dict frequency_ = Ok freq
        /\ day first = day_of_month
        /\ day_of_month <> day start_date_
        /\ (1 <= day_of_month <= 28)%Z
        /\ payments_ <> 0%Z
        /\ let s0 :=
             set_payment_schedule
               (set_first_payment_date
                  (blank amount_ payments_ residual_ start_fee_ end_fee_ freq
                         rate_ start_date_ day_of_month) first)
               (schedule_of_dates
                  (start_date_ ::
                   date_range_from first (Z.to_nat payments_) freq)) in
           let g := payment_gap libm_pow s0 in
           let x0 := (amount_ / float_of_Z payments_)%float in
           let x := fsolve_iterate g k x0 in
           (k < 100)%nat
           /\ calculate_payment libm_pow x s0 = Ok (g x, set_books s0 b)
           /\ books_ok libm_pow x s0 (List.length (payment_schedule s0)) b
           /\ (forall i, (i < k)%nat ->
                 (PrimFloat.abs (fsolve_iterate g (S i) x0 - fsolve_iterate g i x0)
                  <? default_xtol)%float = false)
           /\ match r with
              | Some p =>
                  p = fsolve_iterate g (S k) x0
                  /\ (PrimFloat.abs (p - x) <? default_xtol)%float = true
              | None =>
                  k = 99%nat
                  /\ (PrimFloat.abs (fsolve_iterate g (S k) x0 - x)
                      <? default_xtol)%float = false
              end
           /\ self = set_df (set_monthly_payment (set_books s0 b) r) frame
  | Raise e =>
      (e = KeyError frequency_ /\ forall v, ~ In (frequency_, v) frequency_dict)
      \/ (e = AttributeError "first_payment_date" /\ day_of_month = day start_date_)
      \/ (e = ValueError "day is out of range for month"
          /\ exists p, payment_date_ = Some p /\ (p < 1)%Z)
      \/ (e = ZeroDivisionError /\ payments_ = 0%Z)
      \/ e = ValueError "fail"
  end.
Proof.
  intros day_of_month. unfold init. fold day_of_month.
  destruct (dict_getitem frequency_dict frequency_) as [freq|e] eqn:Hfreq; cbn [bind].
  2:{ left. now apply dict_getitem_raises. }
  assert (Hday : (day_of_month <= 28 \/ day_of_month = day start_date_)%Z).
  { subst day_of_month. destruct payment_date_; [left; lia|now right]. }
  assert (Hmonths : (1 <= freq)%Z).
  { pose proof (dict_getitem_ok _ _ Hfreq) as Hin. cbn in Hin.
    repeat (destruct Hin as [<-|Hin]; [lia|]). contradiction. }
  pose proof (generate_schedule_inv
                (blank amount_ payments_ residual_ start_fee_ end_fee_ freq rate_
                       start_date_ day_of_month) eq_refl Hmonths) as Hgen.
  destruct (generate_schedule _) as [[schedule s1]|e]; cbn [bind].
  2:{ cbn in Hgen. destruct Hgen as [[-> Heq]|(-> & Hne & Hout)];
        [right; left; now split|].
      right. right. left. split; [reflexivity|].
      subst day_of_month. destruct payment_date_ as [p|]; [|now contradiction Hne].
      exists p. split; [reflexivity|]. lia. }
  destruct Hgen as [first (-> & Hfirst & Hne & Hpos & -> & _)].
  cbn [payment_date start_date payments frequency blank amount
       set_payment_schedule set_first_payment_date] in *.
  unfold truediv.
  destruct (Z.eqb_spec payments_ 0) as [->|Hpay]; cbn [bind].
  { right. right. right. left. now split. }
  unfold fsolve. change (Z.to_nat default_max_iter) with (S 99).
  match goal with
  | |- context [fsolve_iter _ _ _ ?x0 ?s0] =>
      pose proof (fsolve_over_walk libm_pow (payment_gap libm_pow s0)
                    default_xtol 99 x0 s0 (fun x => eq_refl)) as Hsolve;
      destruct (fsolve_iter (calculate_payment libm_pow) default_xtol 100 x0 s0)
        as [[r s']|e]
  end; cbn [bind].
  2:{ subst e. right. right. right. now right. }
  destruct Hsolve as [k [b (Hk & Hcalc & -> & Hb & Hm & Hr)]].
  match type of Hb with
  | books_ok _ _ ?s0 _ _ =>
      assert (Hlen : Nat.max 1 (List.length (payment_schedule s0)) =
                     List.length (payment_schedule s0))
  end.
  { change (payment_schedule (set_payment_schedule ?s ?l)) with l.
    rewrite schedule_of_dates_length. cbn [List.length]. lia. }
  rewrite Hlen in Hb.
  destruct (make_df_ok libm_pow np_round2 _ _ r b Hb) as [frame Hframe].
  rewrite Hframe. cbn [bind].
  exists freq, first, b, k, r, frame.
  split; [reflexivity|]. split; [exact Hfirst|]. split; [exact Hne|].
  split; [lia|]. split; [exact Hpay|].
  cbv zeta. split; [lia|]. split; [exact Hcalc|]. split; [exact Hb|].
  split; [exact Hm|]. split; [exact Hr|reflexivity].
Qed.

(** For a count of payments that is not negative, the constructor raises
    in five ways and no other: a [KeyError] for a frequency name the table
    does not hold; an [AttributeError] when the payment day is the start
    day, as it is when none is given; a [ValueError] of [replace] for a
    payment day below 1; a [ZeroDivisionError] for a count of zero
    payments; the [ValueError] of [fsolve] for a slope of zero.  The walk
    and the making of the data frame raise nothing. *)
Theorem init_raises_only (amount_ rate_ : float) (start_date_ : Timestamp)
        (payments_ : Z) (residual_ : float) (payment_date_ : option Z)
        (frequency_ : string) (start_fee_ end_fee_ : float) (e : exn) :
  (0 <= payments_)%Z ->
  init libm_pow np_round2 amount_ rate_ start_date_ payments_ residual_
       payment_date_ frequency_ start_fee_ end_fee_ = Raise e ->
  (e = KeyError frequency_ /\ forall v, ~ In (frequency_, v) frequency_dict)
  \/ (e = AttributeError "first_payment_date"
      /\ match payment_date_ with
         | None => True
         | Some p => Z.min 28 p = day start_date_
         end)
  \/ (e = ValueError "day is out of range for month"
      /\ exists p, payment_date_ = Some p /\ (p < 1)%Z)
  \/ (e = ZeroDivisionError /\ payments_ = 0%Z)
  \/ e = ValueError "fail".
Proof.
  intros _ H.
  pose proof (init_cases amount_ rate_ start_date_ payments_ residual_
                payment_date_ frequency_ start_fee_ end_fee_) as Hc.
  cbv zeta in Hc. rewrite H in Hc.
  destruct Hc as [Hc|[[-> Hc]|Hc]]; auto.
  right. left. split; [reflexivity|]. now destruct payment_date_.
Qed.

(** An object the constructor returns holds the arguments it was given,
    a frequency of the table, a payment day from 1 to 28 that is not the
    start day, a count of payments other than zero, a first payment date
    on the payment day, a schedule of the start date and one date per
    payment, six ledger lists with one entry per schedule row, the first
    closing balance being the amount and the first fee balance the sum of
    the fees, and a data frame. *)
Theorem constructed_object (amount_ rate_ : float) (start_date_ : Timestamp)
        (payments_ : Z) (residual_ : float) (payment_date_ : option Z)
        (frequency_ : string) (start_fee_ end_fee_ : float) (self : loanSchedule) :
  init libm_pow np_round2 amount_ rate_ start_date_ payments_ residual_
       payment_date_ frequency_ start_fee_ end_fee_ = Ok self ->
  (amount self = amount_ /\ rate self = rate_ /\ start_date self = start_date_
   /\ payments self = payments_ /\ residual self = residual_
   /\ start_fee self = start_fee_ /\ end_fee self = end_fee_)
  /\ dict_getitem frequency_dict frequency_ = Ok (frequency self)
  /\ In (frequency self) [1; 4; 5; 12]%Z
  /\ (exists p, payment_date_ = Some p /\ payment_date self = Z.min 28 p)
  /\ (1 <= payment_date self <= 28)%Z
  /\ payment_date self <> day (start_date self)
  /\ payments self <> 0%Z
  /\ (exists first,
        first_payment_date self = Some first /\ day first = payment_date self)
  /\ List.length (payment_schedule self) = S (Z.to_nat (payments self))
  /\ (let rows := List.length (payment_schedule self) in
      List.length (interest_payments (books self)) = rows
      /\ List.length (principal_payments (books self)) = rows
      /\ List.length (fees_outstanding (books self)) = rows
      /\ List.length (total_payments (books self)) = rows
      /\ List.length (opening_balance (books self)) = rows
      /\ List.length (closing_balance (books self)) = rows)
  /\ nth_error (closing_balance (books self)) 0 = Some (amount self)
  /\ nth_error (fees_outstanding (books self)) 0 =
     Some (start_fee self + end_fee self)%float
  /\ df self <> None.
Proof.
  intros H.
  pose proof (init_cases amount_ rate_ start_date_ payments_ residual_
                payment_date_ frequency_ start_fee_ end_fee_) as Hc.
  cbv zeta in Hc. rewrite H in Hc.
  destruct Hc as [freq [first [b [k [r [frame
    (Hfreq & Hfirst & Hne & Hrange & Hpay & Hk & Hcalc & Hb & Hm & Hr & ->)]]]]]].
  cbn [amount rate start_date payments residual start_fee end_fee frequency
       payment_date first_payment_date payment_schedule books df
       set_df set_monthly_payment set_books set_payment_schedule
       set_first_payment_date blank] in *.
  destruct Hb as (Hi & Hp & Hf & Ht & Ho & Hc & Hf0 & Hc0 & _).
  split; [repeat split|]. split; [exact Hfreq|].
  split; [exact (dict_getitem_ok _ _ Hfreq)|].
  split.
  { destruct payment_date_ as [p|]; [now exists p|]. now contradiction Hne. }
  split; [exact Hrange|]. split; [exact Hne|]. split; [exact Hpay|].
  split; [now exists first|].
  split.
  { rewrite schedule_of_dates_length. cbn [List.length].
    now rewrite date_range_from_length. }
  split; [cbv zeta; auto 10|].
  split; [exact Hc0|]. split; [exact Hf0|]. discriminate.
Qed.

(** The books of an object the constructor returns are those of the
    iterate the payment search took its last step from, not those of the
    payment it stores.  The search starts at [amount / payments] and
    moves by Newton steps on the function [g] that [calculate_payment]
    computes on the object; it enters its loop [k + 1] times, [k < 100].
    With [x] the iterate of number [k], walking [x] again on the object
    returns [g x] and the object unchanged; the payment stored, when
    there is one, is the iterate of number [k + 1], the first that is
    less than the tolerance away from the one before it, and when there
    is none the loop has run its hundred turns.  The books are not walked
    again for the payment stored. *)
Theorem books_of_last_iterate (amount_ rate_ : float) (start_date_ : Timestamp)
        (payments_ : Z) (residual_ : float) (payment_date_ : option Z)
        (frequency_ : string) (start_fee_ end_fee_ : float) (self : loanSchedule) :
  init libm_pow np_round2 amount_ rate_ start_date_ payments_ residual_
       payment_date_ frequency_ start_fee_ end_fee_ = Ok self ->
  let g := payment_gap libm_pow self in
  let x0 := (amount_ / float_of_Z payments_)%float in
  exists k,
    (k < 100)%nat
    /\ calculate_payment libm_pow (fsolve_iterate g k x0) self =
       Ok (g (fsolve_iterate g k x0), self)
    /\ (forall i, (i < k)%nat ->
          (PrimFloat.abs (fsolve_iterate g (S i) x0 - fsolve_iterate g i x0)
           <? default_xtol)%float = false)
    /\ match monthly_payment self with
       | Some p =>
           p = fsolve_iterate g (S k) x0
           /\ (PrimFloat.abs (p - fsolve_iterate g k x0) <? default_xtol)%float = true
       | None =>
           k = 99%nat
           /\ (PrimFloat.abs (fsolve_iterate g (S k) x0 - fsolve_iterate g k x0)
               <? default_xtol)%float = false
       end.
Proof.
  intros H g x0.
  pose proof (init_cases amount_ rate_ start_date_ payments_ residual_
                payment_date_ frequency_ start_fee_ end_fee_) as Hc.
  cbv zeta in Hc. rewrite H in Hc.
  destruct Hc as [freq [first [b [k [r [frame
    (_ & _ & _ & _ & _ & Hk & Hcalc & _ & Hm & Hr & Hself)]]]]]].
  fold x0 in Hcalc, Hm, Hr.
  match type of Hcalc with
  | calculate_payment _ _ ?s0 = _ =>
      assert (Hterms : same_terms s0 self)
        by (rewrite Hself; unfold same_terms; cbn; auto 10);
      assert (Hg : forall y, payment_gap libm_pow s0 y = g y)
        by (intros y; now apply payment_gap_agree);
      set (g0 := payment_gap libm_pow s0) in *;
      pose proof (calculate_payment_agree libm_pow _ s0 self _ b Hterms Hcalc)
        as Hwalk
  end.
  assert (Hit : forall i, fsolve_iterate g0 i x0 = fsolve_iterate g i x0)
    by (intros i; now apply fsolve_iterate_ext).
  rewrite !Hit, Hg in Hwalk.
  exists k. split; [exact Hk|]. split.
  { rewrite Hwalk. f_equal. f_equal. rewrite Hself. reflexivity. }
  split.
  { intros i Hi. rewrite <- !Hit. now apply Hm. }
  rewrite Hself. cbn [monthly_payment set_df set_monthly_payment].
  rewrite <- !Hit. exact Hr.
Qed.

End Init.

Lemma init_raises_only_witness :
  (KeyError "weekly" = KeyError "weekly"
   /\ forall v, ~ In ("weekly"%string, v) Hazel.frequency_dict)
  \/ (KeyError "weekly" = AttributeError "first_payment_date"
      /\ Z.min 28 15 = day (mkdate 2023 1 1))
  \/ (KeyError "weekly" = ValueError "day is out of range for month"
      /\ exists p, Some 15%Z = Some p /\ (p < 1)%Z)
  \/ (KeyError "weekly" = ZeroDivisionError /\ 3%Z = 0%Z)
  \/ KeyError "weekly" = ValueError "fail".
Proof.
  apply (init_raises_only libm_unavailable (fun x => x) 1000 0.05 (mkdate 2023 1 1)
           3 0 (Some 15%Z) "weekly" 0 0 (KeyError "weekly")).
  - lia.
  - reflexivity.
Defined.

Lemma constructed_object_witness :
  match Hazel.init libm_unavailable (fun x => x) (-1000) 0 (mkdate 2023 1 1) 12 0
                   (Some 15%Z) "monthly" 0 0 with
  | Ok self => List.length (Hazel.payment_schedule self) = 13%nat
  | Raise _ => False
  end.
Proof.
  destruct (Hazel.init libm_unavailable (fun x => x) (-1000) 0 (mkdate 2023 1 1) 12 0
                       (Some 15%Z) "monthly" 0 0) as [self|e] eqn:H.
  - pose proof (constructed_object _ _ _ _ _ _ _ _ _ _ _ _ H)
      as ((_ & _ & _ & Hp & _) & _ & _ & _ & _ & _ & _ & _ & Hlen & _).
    rewrite Hlen, Hp. reflexivity.
  - vm_compute in H. discriminate H.
Defined.

Lemma books_of_last_iterate_witness :
  match Hazel.init libm_unavailable (fun x => x) 1000 0 (mkdate 2023 1 1) 12 100
                   (Some 15%Z) "monthly" 0 0 with
  | Ok self =>
      (exists k,
          (k < 100)%nat
          /\ let x := Steps.fsolve_iterate (Steps.payment_gap libm_unavailable self) k
                        (1000 / float_of_Z 12)%float in
             Hazel.calculate_payment libm_unavailable x self =
             Ok (Steps.payment_gap libm_unavailable self x, self))
      /\ Hazel.monthly_payment self = Some 75.000000000000028%float
      /\ nth_error (Hazel.total_payments (Hazel.books self)) 2 =
         Some 75.000000002645095%float
  | Raise _ => False
  end.
Proof.
  destruct (Hazel.init libm_unavailable (fun x => x) 1000 0 (mkdate 2023 1 1) 12 100
                       (Some 15%Z) "monthly" 0 0) as [self|e] eqn:H.
  - split.
    + destruct (books_of_last_iterate _ _ _ _ _ _ _ _ _ _ _ _ H) as [k [Hk [Hc _]]].
      exists k. split; [exact Hk|exact Hc].
    + vm_compute in H. injection H as <-. split; reflexivity.
  - vm_compute in H. discriminate H.
Defined.

(** ** The days between payment dates *)

Section Months.

Import Hazel Steps.

Local Open Scope Z_scope.

Lemma days_before_month_succ (y m : Z) :
  1 <= m ->
  days_before_month y (m + 1) = days_before_month y m + days_in_month y m.
Proof.
  intros Hm. unfold days_before_month.
  replace (Z.to_nat (m + 1 - 1)) with (S (Z.to_nat (m - 1))) by lia.
  rewrite seq_S, fold_left_app. cbn [fold_left].
  do 2 f_equal. lia.
Qed.

Lemma days_in_month_bounds (y m : Z) : 28 <= days_in_month y m <= 31.
Proof.
  unfold days_in_month.
  destruct (m =? 2); [destruct (is_leap y); lia|].
  destruct ((m =? 4) || (m =? 6) || (m =? 9) || (m =? 11))%bool; lia.
Qed.

Lemma days_before_month_13 (y : Z) :
  days_before_month y 13 = if is_leap y then 366 else 365.
Proof.
  unfold days_before_month. cbn [Z.to_nat Z.sub Z.add Z.opp Z.pos_sub
                                 Pos.pred_double Pos.to_nat Pos.iter_op Nat.add
                                 seq fold_left].
  change (Z.of_nat 1) with 1. change (Z.of_nat 2) with 2.
  change (Z.of_nat 3) with 3. change (Z.of_nat 4) with 4.
  change (Z.of_nat 5) with 5. change (Z.of_nat 6) with 6.
  change (Z.of_nat 7) with 7. change (Z.of_nat 8) with 8.
  change (Z.of_nat 9) with 9. change (Z.of_nat 10) with 10.
  change (Z.of_nat 11) with 11. change (Z.of_nat 12) with 12.
  unfold days_in_month. cbn [Z.eqb Pos.eqb orb].
  destruct (is_leap y); reflexivity.
Qed.

Lemma days_before_year_succ (y : Z) :
  days_before_year (y + 1) = days_before_year y + days_before_month y 13.
Proof.
  rewrite days_before_month_13. unfold days_before_year, is_leap. cbv zeta.
  replace (y + 1 - 1) with y by lia.
  destruct (Z.eqb_spec (y mod 4) 0) as [H4|H4];
    destruct (Z.eqb_spec (y mod 100) 0) as [H100|H100];
    destruct (Z.eqb_spec (y mod 400) 0) as [H400|H400];
    cbn [andb orb negb];
    Z.div_mod_to_equations; lia.
Qed.

Lemma month_start_succ (n : Z) :
  month_start (n + 1) = month_start n + days_in_month (n / 12) (n mod 12 + 1).
Proof.
  unfold month_start.
  destruct (Z.eq_dec (n mod 12) 11) as [H11|H11].
  - replace ((n + 1) / 12) with (n / 12 + 1) by (Z.div_mod_to_equations; lia).
    replace ((n + 1) mod 12 + 1) with 1 by (Z.div_mod_to_equations; lia).
    rewrite H11. change (11 + 1) with 12.
    rewrite days_before_year_succ.
    change 13 with (12 + 1). rewrite days_before_month_succ by lia.
    change (days_before_month (n / 12 + 1) 1) with 0. lia.
  - replace ((n + 1) / 12) with (n / 12) by (Z.div_mod_to_equations; lia).
    replace ((n + 1) mod 12 + 1) with (n mod 12 + 1 + 1)
      by (Z.div_mod_to_equations; lia).
    rewrite days_before_month_succ by (Z.div_mod_to_equations; lia). lia.
Qed.

Lemma month_start_ahead (n : Z) (k : nat) :
  28 * Z.of_nat k <= month_start (n + Z.of_nat k) - month_start n <= 31 * Z.of_nat k.
Proof.
  induction k as [|k IH].
  - replace (n + Z.of_nat 0) with n by lia. lia.
  - replace (n + Z.of_nat (S k)) with (n + Z.of_nat k + 1) by lia.
    rewrite month_start_succ.
    pose proof (days_in_month_bounds ((n + Z.of_nat k) / 12)
                                     ((n + Z.of_nat k) mod 12 + 1)). lia.
Qed.

Lemma toordinal_by_month (d : Timestamp) :
  1 <= month d <= 12 ->
  toordinal d = month_start (month_number d) + day d.
Proof.
  intros Hm. unfold toordinal, month_start, month_number.
  replace ((12 * year d + (month d - 1)) / 12) with (year d)
    by (Z.div_mod_to_equations; lia).
  replace ((12 * year d + (month d - 1)) mod 12 + 1) with (month d)
    by (Z.div_mod_to_equations; lia).
  reflexivity.
Qed.

Lemma add_months_by_month (d : Timestamp) (k : Z) :
  1 <= month d <= 12 -> day d <= 28 ->
  1 <= month (add_months d k) <= 12
  /\ day (add_months d k) = day d
  /\ month_number (add_months d k) = month_number d + k.
Proof.
  intros Hm Hd. unfold add_months, month_number. cbv zeta. cbn [year month day].
  pose proof (days_in_month_at_least_28
                (year d + (month d - 1 + k) / 12) ((month d - 1 + k) mod 12 + 1)).
  split; [Z.div_mod_to_equations; lia|].
  split; [lia|]. Z.div_mod_to_equations; lia.
Qed.

(** A date on a day up to the 28th, moved on by [k] calendar months, is
    between [28 * k] and [31 * k] days later. *)
Lemma add_months_days (d : Timestamp) (k : Z) :
  1 <= month d <= 12 -> day d <= 28 -> 0 <= k ->
  28 * k <= days_between (add_months d k) d <= 31 * k.
Proof.
  intros Hm Hd Hk.
  destruct (add_months_by_month d k Hm Hd) as (Hm' & Hd' & Hn).
  unfold days_between.
  rewrite (toordinal_by_month d Hm), (toordinal_by_month _ Hm'), Hn, Hd'.
  pose proof (month_start_ahead (month_number d) (Z.to_nat k)) as H.
  rewrite Z2Nat.id in H by assumption. lia.
Qed.

End Months.

Section ScheduleDays.

Import Hazel Steps.

Local Open Scope Z_scope.

Lemma days_column_nth (dates : list Timestamp) (i : nat) (d : Timestamp) :
  nth_error dates i = Some d ->
  nth_error (days_column dates) i =
  Some match nth_error dates (S i) with
       | Some d' => float_of_Z (days_between d' d)
       | None => nan
       end.
Proof.
  revert i. induction dates as [|x rest IH]; intros i Hi.
  - destruct i; discriminate Hi.
  - destruct i as [|i].
    + cbn in Hi. injection Hi as ->. cbn. now destruct rest.
    + cbn [nth_error days_column] in *. now apply IH.
Qed.

Lemma schedule_of_dates_nth (dates : list Timestamp) (i : nat) (row : schedule_row) :
  nth_error (schedule_of_dates dates) i = Some row ->
  nth_error dates i = Some (date row)
  /\ nth_error (days_column dates) i = Some (days_in_period row).
Proof.
  unfold schedule_of_dates. intros H.
  rewrite nth_error_map in H.
  destruct (nth_error (combine dates (days_column dates)) i) as [[d c]|] eqn:Hc;
    [|discriminate H].
  cbn in H. injection H as <-. cbn [date days_in_period].
  revert i Hc. generalize (days_column dates) as column.
  induction dates as [|x rest IH]; intros [|c' column] [|i] Hc;
    try discriminate Hc.
  - cbn in Hc. injection Hc as -> ->. now split.
  - cbn [combine nth_error] in *. now apply IH.
Qed.

(** The dates of a range from a date on a day up to the 28th: all on
    that day, in months 1 to 12. *)
Lemma date_range_from_regular (cur : Timestamp) (periods : nat) (months : Z)
      (i : nat) (d : Timestamp) :
  1 <= month cur <= 12 -> day cur <= 28 ->
  nth_error (date_range_from cur periods months) i = Some d ->
  1 <= month d <= 12 /\ day d = day cur.
Proof.
  revert cur i. induction periods as [|n IH]; intros cur i Hm Hd Hi.
  - destruct i; discriminate Hi.
  - destruct i as [|i].
    + cbn in Hi. injection Hi as <-. now split.
    + cbn [date_range_from nth_error] in Hi.
      destruct (add_months_by_month cur months Hm Hd) as (Hm' & Hd' & _).
      destruct (IH _ _ Hm' ltac:(lia) Hi) as [H1 H2]. split; [exact H1|lia].
Qed.

Lemma month_begin_by_month (d : Timestamp) :
  1 <= month d <= 12 ->
  1 <= month (month_begin d) <= 12
  /\ month_number (month_begin d) = month_number d + 1.
Proof.
  intros Hm. unfold month_begin, month_number.
  destruct (Z.eqb_spec (month d) 12); cbn [year month]; lia.
Qed.

(** The column [days_in_period] of a generated schedule, for a start date
    of the calendar, a payment day from 1 to 28 other than the start day,
    a count of payments that is not negative and a frequency of one month
    or more: the start row counts 1 to 30 days to the first payment date,
    every payment row but the last counts the days to the next payment
    date, between 28 and 31 for each month of the frequency, and the last
    row holds NaN. *)
Theorem schedule_days
        (amount_ : float) (payments_ : Z) (residual_ start_fee_ end_fee_ : float)
        (frequency_ : Z) (rate_ : float) (start_date_ : Timestamp)
        (payment_date_ : Z) :
  valid_date start_date_ = true ->
  1 <= payment_date_ <= 28 ->
  payment_date_ <> day start_date_ ->
  0 <= payments_ ->
  1 <= frequency_ ->
  exists schedule self',
    generate_schedule
      (blank amount_ payments_ residual_ start_fee_ end_fee_ frequency_ rate_
             start_date_ payment_date_) = Ok (schedule, self')
    /\ forall i row,
        nth_error schedule i = Some row ->
        (S i = List.length schedule -> days_in_period row = nan)
        /\ ((S i < List.length schedule)%nat ->
            exists k,
              days_in_period row = float_of_Z k
              /\ (i = 0%nat -> 1 <= k <= 30)
              /\ ((1 <= i)%nat -> 28 * frequency_ <= k <= 31 * frequency_)).
Proof.
  intros Hvalid Hrange Hne _ Hfreq.
  unfold valid_date in Hvalid. rewrite !andb_true_iff, !Z.leb_le in Hvalid.
  destruct Hvalid as [[[Hm1 Hm2] Hd1] Hd2].
  pose proof (generate_schedule_inv
                (blank amount_ payments_ residual_ start_fee_ end_fee_ frequency_
                       rate_ start_date_ payment_date_) eq_refl Hfreq) as Hgen.
  destruct (generate_schedule _) as [[schedule self']|e].
  2:{ exfalso. cbn in Hgen. destruct Hgen as [[_ H]|(_ & _ & H)]; lia. }
  cbn [blank payment_date start_date payments frequency] in Hgen.
  destruct Hgen as [first (_ & Hday & _ & _ & -> & Hfirst)].
  exists (schedule_of_dates
            (start_date_ :: date_range_from first (Z.to_nat payments_) frequency_)),
         self'.
  split; [reflexivity|].
  assert (Hfm : 1 <= month first <= 12).
  { destruct (month_begin_by_month start_date_ ltac:(lia)) as [Hmb _].
    destruct Hfirst as [[-> _]|[-> _]]; cbn [month]; lia. }
  assert (Hgap : 1 <= days_between first start_date_ <= 30).
  { unfold days_between.
    rewrite (toordinal_by_month first Hfm),
            (toordinal_by_month start_date_ ltac:(lia)).
    destruct Hfirst as [[-> Hlt]|[-> Hlt]]; cbn [day].
    - unfold month_number. cbn [year month]. lia.
    - destruct (month_begin_by_month start_date_ ltac:(lia)) as [_ Hn].
      replace (month_number
                 {| year := year (month_begin start_date_);
                    month := month (month_begin start_date_);
                    day := payment_date_ |})
        with (month_number start_date_ + 1) by (rewrite <- Hn; reflexivity).
      rewrite month_start_succ.
      assert (Hy : month_number start_date_ / 12 = year start_date_)
        by (unfold month_number; Z.div_mod_to_equations; lia).
      assert (Hmo : month_number start_date_ mod 12 + 1 = month start_date_)
        by (unfold month_number; Z.div_mod_to_equations; lia).
      rewrite Hy, Hmo.
      pose proof (days_in_month_bounds (year start_date_) (month start_date_)).
      lia. }
  intros i row Hrow.
  rewrite schedule_of_dates_length.
  apply schedule_of_dates_nth in Hrow. destruct Hrow as [Hdate Hcol].
  rewrite (days_column_nth _ _ _ Hdate) in Hcol. injection Hcol as Hcol.
  cbn [List.length].
  rewrite date_range_from_length.
  destruct (nth_error (date_range_from first (Z.to_nat payments_) frequency_) i)
    as [d'|] eqn:Hnext.
  - split.
    + intros Hlast.
      assert (Hin : (i < List.length
                         (date_range_from first (Z.to_nat payments_) frequency_))%nat)
        by (apply nth_error_Some; rewrite Hnext; discriminate).
      rewrite date_range_from_length in Hin. lia.
    + intros Hlt. exists (days_between d' (date row)).
      split; [now symmetry|].
      destruct i as [|i].
      * cbn in Hdate. injection Hdate as <-.
        destruct (Z.to_nat payments_) as [|n]; [discriminate Hnext|].
        cbn in Hnext. injection Hnext as <-.
        split; [intros _; exact Hgap|intros H; lia].
      * cbn [nth_error] in Hdate.
        destruct (date_range_from_regular _ _ _ _ _ Hfm ltac:(lia) Hdate)
          as [Hm Hd].
        rewrite (date_range_from_step _ _ _ _ _ Hdate ltac:(lia)) in Hnext.
        injection Hnext as <-.
        split; [intros H; discriminate H|intros _].
        apply add_months_days; [exact Hm|lia|lia].
  - split.
    + intros _. now symmetry.
    + intros Hlt. apply nth_error_None in Hnext.
      rewrite date_range_from_length in Hnext. lia.
Qed.

End ScheduleDays.

Lemma schedule_days_witness :
  exists schedule self',
    Hazel.generate_schedule Hazel.twelve_months = Ok (schedule, self')
    /\ forall i row,
        nth_error schedule i = Some row ->
        S i = List.length schedule -> Hazel.days_in_period row = nan.
Proof.
  destruct (schedule_days 1000 12 0 100 200 1 0.05 (mkdate 2023 1 1) 15)
    as [schedule [self' [Hg Hrows]]].
  - reflexivity.
  - split; apply Z.leb_le; reflexivity.
  - intros H. discriminate H.
  - apply Z.leb_le. reflexivity.
  - apply Z.leb_le. reflexivity.
  - exists schedule, self'. split; [exact Hg|].
    intros i row Hrow. exact (proj1 (Hrows i row Hrow)).
Defined.

(** ** The rows of the ledger *)

Section LedgerRows.

Import Hazel Steps.

Variable libm_pow : float -> float -> float.

Lemma calculate_payment_value (payment value : float) (self : loanSchedule)
      (b : ledger) :
  calculate_payment libm_pow payment self = Ok (value, set_books self b) ->
  exists last,
    nth_error (closing_balance b) (List.length (payment_schedule self) - 1) = Some last
    /\ value = (last - residual self)%float.
Proof.
  unfold calculate_payment. rewrite payment_schedule_set_books.
  destruct (walk libm_pow payment (set_books self (initial_books self)) _)
    as [t|e]; [|intros H; discriminate H].
  cbn [bind]. unfold getitem.
  destruct (nth_error (closing_balance (books t))
                      (List.length (payment_schedule t) - 1)) as [last|] eqn:Hlast;
    [|intros H; discriminate H].
  cbn [bind]. intros H. injection H as Hv Ht. subst t.
  cbn [books set_books payment_schedule residual] in *.
  exists last. split; [exact Hlast|now symmetry].
Qed.

(** The ledger [calculate_payment] leaves, row by row.  Row 0 holds the
    amount as closing balance and the sum of the two fees as fee balance.
    Every later row [i] opens with the closing balance of row [i - 1],
    splits the payment into the interest accrued on that balance and the
    principal [payment - interest], and closes with the opening balance
    less the principal; between the first and the last payment row the
    amount charged is the payment and the fee balance stays.  The value
    returned is the closing balance of the last row less the residual. *)
Theorem ledger_rows (payment : float) (self : loanSchedule) :
  let rows := List.length (payment_schedule self) in
  exists value self',
    calculate_payment libm_pow payment self = Ok (value, self')
    /\ (exists last,
          nth_error (closing_balance (books self')) (rows - 1) = Some last
          /\ value = (last - residual self)%float)
    /\ nth_error (closing_balance (books self')) 0 = Some (amount self)
    /\ nth_error (fees_outstanding (books self')) 0 =
       Some (start_fee self + end_fee self)%float
    /\ forall i,
        (1 <= i < rows)%nat ->
        exists opened interest fee,
          nth_error (closing_balance (books self')) (i - 1) = Some opened
          /\ nth_error (opening_balance (books self')) i = Some opened
          /\ nth_error (interest_payments (books self')) i = Some interest
          /\ nth_error (principal_payments (books self')) i =
             Some (payment - interest)%float
          /\ nth_error (closing_balance (books self')) i =
             Some (opened - (payment - interest))%float
          /\ nth_error (fees_outstanding (books self')) (i - 1) = Some fee
          /\ ((1 < i < rows - 1)%nat ->
              nth_error (total_payments (books self')) i = Some payment
              /\ nth_error (fees_outstanding (books self')) i = Some fee).
Proof.
  intros rows.
  destruct (calculate_payment_ok libm_pow payment self) as [value [b [Hc Hb]]].
  exists value, (set_books self b). split; [exact Hc|].
  split; [exact (calculate_payment_value _ _ _ _ Hc)|].
  cbn [books set_books].
  destruct Hb as (_ & _ & _ & _ & _ & _ & Hf0 & Hc0 & Hrows).
  split; [exact Hc0|]. split; [exact Hf0|].
  intros i Hi.
  destruct (Hrows i) as [[opened [days (H1 & H2 & _ & H4 & H5 & H6)]]
                           [fee (F1 & F2 & F3)]]; [subst rows; lia|].
  cbv zeta in H4, H5, H6.
  eexists opened, _, fee.
  split; [exact H1|]. split; [exact H2|]. split; [exact H4|].
  split; [exact H5|]. split; [exact H6|]. split; [exact F1|].
  intros Hmid. unfold total_due in F3. unfold fee_left in F2.
  assert (E1 : (i =? 1)%nat = false) by (apply Nat.eqb_neq; lia).
  assert (E2 : (i =? List.length (payment_schedule self) - 1)%nat = false)
    by (apply Nat.eqb_neq; subst rows; lia).
  rewrite E1, E2 in F2, F3. now split.
Qed.

End LedgerRows.

Lemma xirr_returned_rate_witness :
  let f := Eir.npv libm_unavailable (Eir.sort_index Eir.as_listed Eir.same_day)
                   Eir.new_year_2026 in
  exists k,
    (k <= 50)%nat
    /\ (k = 50%nat
        \/ (0 <? f Eir.lower0 * f (Eir.doubled k Eir.upper0))%float = false
        \/ ((1 <= k)%nat /\ (1e6 <? Eir.doubled k Eir.upper0)%float = true)).
Proof.
  intros f.
  destruct (xirr_returned_rate Eir.as_listed libm_unavailable Eir.same_day
              0.05 1e-8 200
              (Eir.new_year_2026, 1e16%float) (List.tl Eir.same_day)
              4.5000499999999999%float eq_refl eq_refl eq_refl)
    as [k (Hk & _ & _ & Hstop & _)].
  exists k. split; [exact Hk|exact Hstop].
Defined.
